(** * The diagnostic conversation endpoint of [python_server/app.py]

    A shallow embedding of the [text_to_sql] request handler: the Python
    text methods it calls, the decoded JSON values it inspects, the
    transaction it opens on the session table, and the reply it builds.

    Conventions.
    - Text is a [string] of bytes, the UTF-8 encoding of the Python text.
      [str.strip] removes the white space of [str.isspace], the ASCII one
      and the characters beyond it (U+0085, U+00A0, U+1680, U+2000 to
      U+200A, U+2028, U+2029, U+202F, U+205F, U+3000), which it finds by
      their bytes.
    - The services the handler calls but does not define ([json.loads],
      [ast.literal_eval], [str()], the model chain, SQL execution) are the
      fields of one record, [externals]; every theorem holds for all of
      them.  The query the model writes is taken to read the knowledge
      tables: it returns rows or raises, and leaves [chat_sessions] alone.
      Neither the chain nor the query is given the session table: what
      they answer does not depend on what [chat_sessions] holds.
    - The body of a request is a JSON object, and its [question] and
      [sessionId] are each text or falsy.  A body that is no object (for
      which [data.get] raises before the handler's [try]) and a truthy
      value that is not text are not covered.
    - A reply is the pair handed back by the handler: the object given to
      [jsonify] and the status.  Flask writes the keys of the object in
      sorted order; no statement depends on their order.
    - [with connection.begin()] commits when its block is left normally
      (also by [return]) and rolls back when an exception leaves it.
    - Requests are handled one at a time. *)

From Stdlib Require Import ZArith Ascii String Floats DecimalString.
From stdpp Require Import base option list gmap strings.

Local Open Scope string_scope.
Local Open Scope list_scope.

(** ** Python text methods *)

Module Text.

(** [c.isspace()] for a character of one byte: TAB..CR, FS..US and the
    blank. *)
Definition is_space (c : ascii) : bool :=
  let n := nat_of_ascii c in
  ((9 <=? n) && (n <=? 13) || (28 <=? n) && (n <=? 32))%nat.

(** The white space of two bytes: U+0085 and U+00A0, in UTF-8 [C2 85] and
    [C2 A0]. *)
Definition is_space2 (a b : ascii) : bool :=
  let a := nat_of_ascii a in
  let b := nat_of_ascii b in
  ((a =? 194) && ((b =? 133) || (b =? 160)))%nat.

(** The white space of three bytes: U+1680 ([E1 9A 80]), U+2000..U+200A,
    U+2028, U+2029 and U+202F ([E2 80 80] .. [E2 80 8A], [E2 80 A8],
    [E2 80 A9], [E2 80 AF]), U+205F ([E2 81 9F]) and U+3000 ([E3 80 80]). *)
Definition is_space3 (a b c : ascii) : bool :=
  let a := nat_of_ascii a in
  let b := nat_of_ascii b in
  let c := nat_of_ascii c in
  ((a =? 225) && (b =? 154) && (c =? 128)
   || (a =? 226) && (b =? 128)
      && ((128 <=? c) && (c <=? 138) || (c =? 168) || (c =? 169) || (c =? 175))
   || (a =? 226) && (b =? 129) && (c =? 159)
   || (a =? 227) && (b =? 128) && (c =? 128))%nat.

(** The number of bytes of the white-space character [s] starts with; 0
    when it starts with none. *)
Definition space_width (s : string) : nat :=
  match s with
  | String a s1 =>
      if is_space a then 1
      else match s1 with
           | String b s2 =>
               if is_space2 a b then 2
               else match s2 with
                    | String c _ => if is_space3 a b c then 3 else 0
                    | EmptyString => 0
                    end
           | EmptyString => 0
           end
  | EmptyString => 0
  end.

(** [s.lstrip()]: the white-space characters [s] starts with are removed. *)
Fixpoint lstrip (s : string) : string :=
  match s with
  | String a s1 =>
      if is_space a then lstrip s1
      else match s1 with
           | String b s2 =>
               if is_space2 a b then lstrip s2
               else match s2 with
                    | String c s3 => if is_space3 a b c then lstrip s3 else s
                    | EmptyString => s
                    end
           | EmptyString => s
           end
  | EmptyString => EmptyString
  end.

(** [s] holds white-space characters only ([s.isspace()], or [s] is
    empty). *)
Fixpoint blank (s : string) : bool :=
  match s with
  | String a s1 =>
      if is_space a then blank s1
      else match s1 with
           | String b s2 =>
               if is_space2 a b then blank s2
               else match s2 with
                    | String c s3 => is_space3 a b c && blank s3
                    | EmptyString => false
                    end
           | EmptyString => false
           end
  | EmptyString => true
  end.

(** [s.rstrip()]: [s] up to the point from which only white space
    follows. *)
Fixpoint rstrip (s : string) : string :=
  match s with
  | EmptyString => EmptyString
  | String c s' => if blank s then EmptyString else String c (rstrip s')
  end.

(** [s.strip()] *)
Definition strip (s : string) : string := rstrip (lstrip s).

(** [s.startswith(p)] *)
Fixpoint startswith (s p : string) : bool :=
  match p, s with
  | EmptyString, _ => true
  | String _ _, EmptyString => false
  | String a p', String b s' => Ascii.eqb a b && startswith s' p'
  end.

(** [s[n:]] for [n >= 0] *)
Fixpoint slice_from (n : nat) (s : string) : string :=
  match n, s with
  | O, _ => s
  | S _, EmptyString => EmptyString
  | S n', String _ s' => slice_from n' s'
  end.

(** [s[:n]] for [n >= 0] *)
Fixpoint slice_to (n : nat) (s : string) : string :=
  match n, s with
  | O, _ => EmptyString
  | S _, EmptyString => EmptyString
  | S n', String c s' => String c (slice_to n' s')
  end.

(** [s[:-n]] for [n > 0]: everything but the last [n] characters. *)
Definition slice_to_last (n : nat) (s : string) : string :=
  slice_to (String.length s - n) s.

(** [s.endswith(p)] *)
Definition endswith (s p : string) : bool :=
  (String.length p <=? String.length s)%nat
  && String.eqb (slice_from (String.length s - String.length p) s) p.

(** [s.replace(old, new)] scans left to right and replaces the occurrences
    of [old] that do not overlap an earlier replaced one.  [skip] counts the
    characters of a matched occurrence still to be passed over. *)
Fixpoint replace_from (old new : string) (skip : nat) (s : string) : string :=
  match s with
  | EmptyString => EmptyString
  | String c s' =>
      match skip with
      | S k => replace_from old new k s'
      | O =>
          if startswith s old
          then new +:+ replace_from old new (String.length old - 1) s'
          else String c (replace_from old new 0 s')
      end
  end.

(** With an empty [old], Python puts [new] before every character and at
    the end. *)
Fixpoint interleave (new s : string) : string :=
  match s with
  | EmptyString => new
  | String c s' => new +:+ String c (interleave new s')
  end.

Definition replace (s old new : string) : string :=
  match old with
  | EmptyString => interleave new s
  | String _ _ => replace_from old new 0 s
  end.

(** [sep.join(parts)] *)
Definition join (sep : string) (parts : list string) : string :=
  String.concat sep parts.

(** A byte that continues a UTF-8 sequence: [10xxxxxx]. *)
Definition is_continuation (c : ascii) : bool :=
  let n := nat_of_ascii c in ((128 <=? n) && (n <=? 191))%nat.

(** [list(s)]: the characters of [s], each one as text.  A lead byte is
    kept together with the continuation bytes that follow it. *)
Fixpoint chars_from (cur : string) (s : string) : list string :=
  match s with
  | EmptyString => [cur]
  | String c s' =>
      if is_continuation c then chars_from (cur +:+ String c EmptyString) s'
      else cur :: chars_from (String c EmptyString) s'
  end.

Definition chars (s : string) : list string :=
  match s with
  | EmptyString => []
  | String c s' => chars_from (String c EmptyString) s'
  end.

End Text.

(** ** Python values *)

(** What [json.loads] returns and what a result row holds: [None], [bool],
    [int], [float], [str], [list] and [dict] (keys in insertion order, each
    key once). *)
#[warnings="-register-all"]
Inductive value : Type :=
| VNone
| VBool (b : bool)
| VInt (n : Z)
| VFloat (f : float)
| VStr (s : string)
| VList (l : list value)
| VDict (d : list (string * value)).

(** [bool(v)] *)
Definition truthy (v : value) : bool :=
  match v with
  | VNone => false
  | VBool b => b
  | VInt n => negb (n =? 0)%Z
  | VFloat f => negb (PrimFloat.eqb f PrimFloat.zero)
  | VStr s => negb (String.eqb s "")
  | VList l => match l with [] => false | _ => true end
  | VDict d => match d with [] => false | _ => true end
  end.

(** [type(v).__name__], as error messages print it. *)
Definition type_name (v : value) : string :=
  match v with
  | VNone => "NoneType"
  | VBool _ => "bool"
  | VInt _ => "int"
  | VFloat _ => "float"
  | VStr _ => "str"
  | VList _ => "list"
  | VDict _ => "dict"
  end.

(** [d.get(key, default)] *)
Fixpoint dict_get (d : list (string * value)) (key : string) (default : value) : value :=
  match d with
  | [] => default
  | (k, v) :: d' => if String.eqb k key then v else dict_get d' key default
  end.

(** [v == s] for a text literal [s]: only equal text compares equal. *)
Definition eq_text (v : value) (s : string) : bool :=
  match v with
  | VStr t => String.eqb t s
  | _ => false
  end.

(** [a or b] *)
Definition py_or (a b : value) : value := if truthy a then a else b.

(** ** Exceptions and fallible steps *)

(** The exceptions that reach the handler's [except Exception]; [str(e)] is
    the message. *)
Inductive exn : Type :=
| AttributeError (msg : string)
| TypeError (msg : string)
| RecursionError (msg : string)
| ServiceError (msg : string).

Definition exn_str (e : exn) : string :=
  match e with
  | AttributeError msg | TypeError msg | RecursionError msg
  | ServiceError msg => msg
  end.

(** A step that either yields a value or raises. *)
Inductive outcome (A : Type) : Type :=
| Value (a : A)
| Raised (e : exn).
Arguments Value {A} a.
Arguments Raised {A} e.

Definition outcome_bind {A B : Type} (m : outcome A) (k : A -> outcome B) : outcome B :=
  match m with
  | Value a => k a
  | Raised e => Raised e
  end.

#[global]
Instance outcome_ret : MRet outcome := fun _ a => Value a.
#[global]
Instance outcome_mbind : MBind outcome := fun _ _ k m => outcome_bind m k.

Definition no_attribute (v : value) (attr : string) : exn :=
  AttributeError ("'" +:+ type_name v +:+ "' object has no attribute '" +:+ attr +:+ "'").

(** ** Sessions, rows and the services the handler calls *)

(** One entry of a session's history: [{"role": ..., "content": ...}]. *)
Record turn : Type := Turn { role : string; content : value }.

(** The [chat_sessions] table: [session_id] to the [history] column, [None]
    for SQL NULL. *)
Abbreviation sessions_table := (gmap string (option (list turn))).

(** A result row, column name to value. *)
Abbreviation row := (list (string * value)).

(** What [ast.literal_eval] does with a text. *)
Inductive literal : Type :=
| LitValue (v : value)      (* the literal's value *)
| LitOther                  (* a tuple, set, bytes or complex literal *)
| LitInvalid                (* ValueError or SyntaxError *)
| LitRaises (e : exn).      (* any other exception, e.g. an unhashable key *)

(** The statements the handler sends on its connection. *)
Inductive statement : Type :=
| SelectHistory (session_id : string)
| InsertSession (session_id : string) (history : list turn)
| RunQuery (sql : string)
| UpdateHistory (session_id : string) (history : list turn).

Inductive session_op : Type := OpSelect | OpInsert | OpUpdate.

Record externals : Type := {
  (** [json.loads]: the decoded value, [None] when it raises *)
  json_loads : string -> option value;
  (** what [json.loads] raises on a text it does not decode: [None] is
      [json.JSONDecodeError], [Some e] any other exception (as
      [RecursionError] on text nested deeper than the interpreter allows) *)
  json_raises : string -> option exn;
  (** [ast.literal_eval] *)
  literal_eval : string -> literal;
  (** [str(v)] for a value that is not text, as an f-string applies it *)
  str_of : value -> string;
  (** [query_chain.invoke] on the question and the history sent with it *)
  invoke_chain : string -> list turn -> outcome string;
  (** [connection.execute(text(sql)).fetchall()], a read of the knowledge
      tables *)
  fetchall : string -> outcome (list row);
  (** a statement on [chat_sessions] that the store refuses *)
  session_fault : session_op -> option exn
}.

(** ** The transaction *)

(** The connection inside [with connection.begin()]: the table as the
    transaction sees it, and the statements sent so far. *)
Record conn : Type := Conn {
  sessions : sessions_table;
  sent : list statement
}.

(** The HTTP reply: [jsonify(body), status].  [body] is the object handed
    to [jsonify], its keys in the order the handler wrote them. *)
Record reply : Type := Reply { status : Z; body : list (string * value) }.

Definition jsonify (body : list (string * value)) (status : Z) : reply :=
  Reply status body.

(** How a piece of the [with] block ends: it goes on, it leaves the handler
    by [return], or it raises. *)
Inductive flow (A : Type) : Type :=
| Next (a : A)
| Return (r : reply)
| Raise (e : exn).
Arguments Next {A} a.
Arguments Return {A} r.
Arguments Raise {A} e.

Definition tx (A : Type) : Type := conn -> flow A * conn.

Definition tx_bind {A B : Type} (m : tx A) (k : A -> tx B) : tx B :=
  fun c =>
    match m c with
    | (Next a, c') => k a c'
    | (Return r, c') => (Return r, c')
    | (Raise e, c') => (Raise e, c')
    end.

#[global]
Instance tx_ret : MRet tx := fun _ a c => (Next a, c).
#[global]
Instance tx_mbind : MBind tx := fun _ _ k m => tx_bind m k.

Definition leave {A : Type} (r : reply) : tx A := fun c => (Return r, c).
Definition raise {A : Type} (e : exn) : tx A := fun c => (Raise e, c).

(** A fallible step run inside the block. *)
Definition run {A : Type} (m : outcome A) : tx A :=
  match m with
  | Value a => mret a
  | Raised e => raise e
  end.

Definition send (s : statement) : tx unit :=
  fun c => (Next tt, Conn (sessions c) (sent c ++ [s])).

Definition write (f : sessions_table -> sessions_table) : tx unit :=
  fun c => (Next tt, Conn (f (sessions c)) (sent c)).

Definition peek {A : Type} (f : sessions_table -> A) : tx A :=
  fun c => (Next (f (sessions c)), c).

Definition attempt (ext : externals) (op : session_op) : tx unit :=
  match session_fault ext op with
  | Some e => raise e
  | None => mret tt
  end.

(** [SELECT history FROM chat_sessions WHERE session_id = :session_id],
    [fetchone()]: the row's only column, if there is a row. *)
Definition select_history (ext : externals) (session_id : string)
  : tx (option (option (list turn))) :=
  send (SelectHistory session_id) ;;
  attempt ext OpSelect ;;
  peek (fun t => t !! session_id).

(** [INSERT INTO chat_sessions (session_id, history) VALUES (...)] *)
Definition insert_session (ext : externals) (session_id : string)
    (history : list turn) : tx unit :=
  send (InsertSession session_id history) ;;
  attempt ext OpInsert ;;
  write (fun t => <[session_id := Some history]> t).

(** [UPDATE chat_sessions SET history = :history WHERE session_id = ...]:
    only an existing row changes. *)
Definition update_history (ext : externals) (session_id : string)
    (history : list turn) : tx unit :=
  send (UpdateHistory session_id history) ;;
  attempt ext OpUpdate ;;
  write (fun t =>
    match t !! session_id with
    | Some _ => <[session_id := Some history]> t
    | None => t
    end).

(** [connection.execute(text(sql_query)).fetchall()] *)
Definition execute_query (ext : externals) (sql_query : value) : tx (list row) :=
  match sql_query with
  | VStr q => send (RunQuery q) ;; run (fetchall ext q)
  | _ => raise (TypeError "expected string or bytes-like object")
  end.

(** ** Step 3: the model's answer *)

(** The text handed to [json.loads]: the answer stripped, an opening
    fence removed, a closing fence removed, and stripped again. *)
Definition strip_fences (llm_response_str : string) : string :=
  let json_str := Text.strip llm_response_str in
  let json_str :=
    if Text.startswith json_str "```json" then Text.slice_from 7 json_str
    else json_str in
  let json_str :=
    if Text.startswith json_str "```" then Text.slice_from 3 json_str
    else json_str in
  let json_str :=
    if Text.endswith json_str "```" then Text.slice_to_last 3 json_str
    else json_str in
  Text.strip json_str.

(** The alias fix: three replacements, in this order. *)
Definition rewrite_aliases (sql_query : string) : string :=
  let sql_query := Text.replace sql_query " bf.model " " bf.model_name " in
  let sql_query := Text.replace sql_query " bf.model," " bf.model_name," in
  let sql_query := Text.replace sql_query ".model =" ".model_name =" in
  sql_query.

(** [sql_query.replace(...)] on whatever value the key holds. *)
Definition fix_sql_query (sql_query : value) : outcome value :=
  match sql_query with
  | VStr q => Value (VStr (rewrite_aliases q))
  | other => Raised (no_attribute other "replace")
  end.

(** The fields read from the decoded answer. *)
Record decision : Type := Decision {
  action : value;
  response_text : value;
  context_update : value;
  sql_query : value;
  manual_link : value;
  regulation_ref : value
}.

(** [llm_json.get(...)] for each field, with the alias fix applied to a
    truthy [sql_query]. *)
Definition read_decision (llm_json : value) : outcome decision :=
  match llm_json with
  | VDict d =>
      let action := dict_get d "action" VNone in
      let response_text := dict_get d "response" VNone in
      let context_update := dict_get d "context_update" (VDict []) in
      let sql_query := dict_get d "sql_query" VNone in
      sql_query ← (if truthy sql_query then fix_sql_query sql_query
                   else Value sql_query);
      let manual_link := dict_get d "manual_link" (VStr "") in
      let regulation_ref := dict_get d "regulation_ref" (VStr "") in
      Value (Decision action response_text context_update sql_query
               manual_link regulation_ref)
  | other => Raised (no_attribute other "get")
  end.

(** The whole of the inner [try]: [None] is its [except
    json.JSONDecodeError] branch. *)
Definition parse_decision (ext : externals) (llm_response_str : string)
  : option (outcome decision) :=
  let json_str := strip_fences llm_response_str in
  match json_loads ext json_str with
  | Some llm_json => Some (read_decision llm_json)
  | None =>
      match json_raises ext json_str with
      | None => None
      | Some e => Some (Raised e)
      end
  end.

(** ** Step 5: the reply *)

Definition LF : string := String "010" EmptyString.

Definition no_match_message : string :=
  "No specific fault code found. Based on the information provided, I'll use my engineering experience to help diagnose the issue.".

Definition no_query_message : string := "Unable to generate a database query.".

Definition clarify_message : string :=
  "I'm not sure how to proceed. Could you please clarify?".

Definition manual_mark : string := "üìñ Manual: ".
Definition regulation_mark : string := "‚ö†Ô∏è Gas Safety Regulation: ".

(** [f"{v}"] *)
Definition fmt (ext : externals) (v : value) : string :=
  match v with
  | VStr s => s
  | other => str_of ext other
  end.

(** The [solutions] column as a list. *)
Definition normalize_solutions (ext : externals) (solutions_val : value)
  : outcome (list value) :=
  match solutions_val with
  | VList l => Value l
  | VStr s =>
      match literal_eval ext s with
      | LitValue (VList l) => Value l
      | LitValue _ | LitOther => Value [solutions_val]
      | LitInvalid => Value [solutions_val]
      | LitRaises e => Raised e
      end
  | _ => Value []
  end.

(** [description.strip()] *)
Definition strip_value (description : value) : outcome string :=
  match description with
  | VStr s => Value (Text.strip s)
  | other => Raised (no_attribute other "strip")
  end.

(** The reply built from the first row of a query result. *)
Definition format_row (ext : externals) (row_dict : row)
    (manual_link regulation_ref : value) : outcome value :=
  let description := dict_get row_dict "description" (VStr "") in
  let solutions_val := dict_get row_dict "solutions" VNone in
  solutions_list ← normalize_solutions ext solutions_val;
  final_response ← strip_value description;
  let final_response :=
    match solutions_list with
    | [] => final_response
    | _ =>
        let steps :=
          Text.join LF (map (fun s => "- " +:+ fmt ext s) solutions_list) in
        final_response +:+ LF +:+ LF +:+ "Recommended steps:" +:+ LF +:+ steps
    end in
  let final_response :=
    if truthy manual_link
    then final_response +:+ LF +:+ LF +:+ manual_mark +:+ fmt ext manual_link
    else final_response in
  let final_response :=
    if truthy regulation_ref
    then final_response +:+ LF +:+ LF +:+ regulation_mark +:+ fmt ext regulation_ref
    else final_response in
  Value (VStr final_response).

(** [final_response += text]: text is appended to text, a list is extended
    by the characters, anything else has no such operation. *)
Definition iadd (final_response : value) (text : string) : outcome value :=
  match final_response with
  | VStr s => Value (VStr (s +:+ text))
  | VList l => Value (VList (l ++ map VStr (Text.chars text)))
  | other =>
      Raised (TypeError ("unsupported operand type(s) for +=: '"
                         +:+ type_name other +:+ "' and 'str'"))
  end.

(** The reply of the [fallback_reasoning] branch. *)
Definition annotate (ext : externals) (response_text manual_link
    regulation_ref : value) : outcome value :=
  let final_response := response_text in
  final_response ←
    (if truthy manual_link
     then iadd final_response (LF +:+ LF +:+ manual_mark +:+ fmt ext manual_link)
     else Value final_response);
  if truthy regulation_ref
  then iadd final_response (LF +:+ LF +:+ regulation_mark +:+ fmt ext regulation_ref)
  else Value final_response.

(** The branch on [action]: the final reply and the [sql_query] reported
    with it. *)
Definition execute_action (ext : externals) (d : decision) : tx (value * value) :=
  let sql_query_for_response := VStr "N/A" in
  if eq_text (action d) "query" then
    final_response ←
      (if truthy (sql_query d) then
         query_result ← execute_query ext (sql_query d);
         match query_result with
         | row_dict :: _ =>
             run (format_row ext row_dict (manual_link d) (regulation_ref d))
         | [] => mret (py_or (response_text d) (VStr no_match_message))
         end
       else mret (VStr no_query_message));
    let sql_query_for_response := sql_query d in
    mret (final_response, sql_query_for_response)
  else if eq_text (action d) "fallback_reasoning" then
    final_response ←
      run (annotate ext (response_text d) (manual_link d) (regulation_ref d));
    mret (final_response, sql_query_for_response)
  else if eq_text (action d) "ask" then
    mret (response_text d, sql_query_for_response)
  else
    mret (py_or (response_text d) (VStr clarify_message), sql_query_for_response).

(** ** The handler *)

(** The two fields the handler reads from the JSON body of the request,
    each as [data.get] returns it: [Some] text, or [None] for a value the
    handler's test [if not ...] refuses whatever it is (a missing key,
    [null], [false], [0], an empty list or object).  An empty text is
    refused as well; [present] sees to that. *)
Record request : Type := Request {
  question : option string;
  sessionId : option string
}.

Definition present (field : option string) : option string :=
  match field with
  | Some s => if String.eqb s "" then None else Some s
  | None => None
  end.

Definition user_turn (question : string) : turn := Turn "user" (VStr question).
Definition assistant_turn (final_response : value) : turn :=
  Turn "assistant" final_response.

Definition decode_failure (llm_response_str : string) : reply :=
  jsonify [("error", VStr "Failed to decode LLM response JSON.");
           ("llm_response", VStr llm_response_str)] 500.

Definition failure (e : exn) : reply :=
  jsonify [("error", VStr (exn_str e))] 500.

(** Step 1: the stored history, the session created when it is unknown. *)
Definition load_history (ext : externals) (session_id : string) : tx (list turn) :=
  result ← select_history ext session_id;
  match result with
  | Some stored =>
      mret (match stored with Some (t :: h) => t :: h | _ => [] end)
  | None => insert_session ext session_id [] ;; mret []
  end.

(** The block of [with connection.begin()]. *)
Definition in_transaction (ext : externals) (session_id question : string)
  : tx reply :=
  (* 1. fetch or create the session *)
  history ← load_history ext session_id;
  let history := history ++ [user_turn question] in
  (* 2. invoke the chain *)
  llm_response_str ← run (invoke_chain ext question history);
  (* 3. parse the answer *)
  match parse_decision ext llm_response_str with
  | None => leave (decode_failure llm_response_str)
  | Some fields =>
      d ← run fields;
      (* 5. execute the action *)
      '(final_response, sql_query_for_response) ← execute_action ext d;
      (* 6. update the history *)
      let history := history ++ [assistant_turn final_response] in
      update_history ext session_id history ;;
      mret (jsonify [("response", final_response);
                     ("sql_query", sql_query_for_response);
                     ("session_id", VStr session_id);
                     ("manual_link", manual_link d);
                     ("regulation_ref", regulation_ref d);
                     ("action", action d)] 200)
  end.

(** What one request leaves behind: the reply, the table after it, and
    the statements that were sent. *)
Record served : Type := Served {
  answer : reply;
  stored : sessions_table;
  statements : list statement
}.

(** [text_to_sql]: the two checks, then the transaction; a block left
    normally commits, an exception rolls back and becomes the generic
    failure. *)
Definition text_to_sql (ext : externals) (table : sessions_table)
    (data : request) : served :=
  match present (sessionId data) with
  | None => Served (jsonify [("error", VStr "No session ID provided")] 400) table []
  | Some session_id =>
      match present (question data) with
      | None => Served (jsonify [("error", VStr "No question provided")] 400) table []
      | Some question =>
          match in_transaction ext session_id question (Conn table []) with
          | (Next r, c) | (Return r, c) => Served r (sessions c) (sent c)
          | (Raise e, c) => Served (failure e) table (sent c)
          end
      end
  end.

(** ** Requests in sequence *)

(** Requests served one after the other, each with the services as they
    answer at that time; the table of one is the table the next starts
    from.  The result is the last table and every request with its reply. *)
Fixpoint serve (table : sessions_table) (requests : list (externals * request))
  : sessions_table * list (request * reply) :=
  match requests with
  | [] => (table, [])
  | (ext, data) :: rest =>
      let s := text_to_sql ext table data in
      let '(table', log) := serve (stored s) rest in
      (table', (data, answer s) :: log)
  end.

(** ** Vocabulary of the statements *)

(** The history a request starts from: the stored one, empty when the
    session is unknown or its column is NULL. *)
Definition history_of (table : sessions_table) (session_id : string) : list turn :=
  match table !! session_id with
  | Some (Some h) => h
  | _ => []
  end.

(** The table once the session exists. *)
Definition created (table : sessions_table) (session_id : string) : sessions_table :=
  match table !! session_id with
  | Some _ => table
  | None => <[session_id := Some []]> table
  end.

(** The queries among the statements sent. *)
Definition queries_run (l : list statement) : list string :=
  flat_map (fun s => match s with RunQuery q => [q] | _ => [] end) l.

(** The query a decision makes the handler run, if any. *)
Definition queries_of (d : decision) : list string :=
  if eq_text (action d) "query" && truthy (sql_query d)
  then match sql_query d with VStr q => [q] | _ => [] end
  else [].

(** How step 5 ends for a decision. *)
Definition acted (ext : externals) (d : decision) : flow (value * value) :=
  fst (execute_action ext d (Conn ∅ [])).

(** The body of a successful reply. *)
Definition ok_body (session_id : string) (d : decision)
    (final_response sql_query_for_response : value) : list (string * value) :=
  [("response", final_response); ("sql_query", sql_query_for_response);
   ("session_id", VStr session_id); ("manual_link", manual_link d);
   ("regulation_ref", regulation_ref d); ("action", action d)].

(** A request of this log entry ended with status 200 on this session. *)
Definition completed (session_id : string) (entry : request * reply) : bool :=
  (status entry.2 =? 200)%Z
  && match present (sessionId entry.1) with
     | Some sid => String.eqb sid session_id
     | None => false
     end.

(** The two turns a completed request stands for: its question and the
    reply it returned. *)
Definition turns_of (entry : request * reply) : list turn :=
  match present (question entry.1) with
  | Some q => [user_turn q; assistant_turn (dict_get (body entry.2) "response" VNone)]
  | None => []
  end.

Definition is_text (v : value) : bool :=
  match v with VStr _ => true | _ => false end.

(** A value [sql_query.replace] accepts or the handler never calls it on:
    text, or anything falsy. *)
Definition text_or_falsy (v : value) : bool := is_text v || negb (truthy v).

(** White space only: the characters of [str.isspace], or nothing. *)
Definition all_space (w : string) : bool := Text.blank w.

(** The text of a JSON object: what stands between its braces, in them. *)
Definition json_object_text (members : string) : string := "{" +:+ members +:+ "}".

(** The last character, if any. *)
Fixpoint last_char (s : string) : option ascii :=
  match s with
  | EmptyString => None
  | String c EmptyString => Some c
  | String _ s' => last_char s'
  end.

(** An ASCII character that is no white space. *)
Definition plain (c : ascii) : bool :=
  (nat_of_ascii c <? 128)%nat && negb (Text.is_space c).

(** Text that begins and ends with such a character; [strip] keeps it
    whole. *)
Definition plain_ends (x : string) : Prop :=
  (exists c x', x = String c x' /\ plain c = true)
  /\ (exists x' c, x = x' +:+ String c "" /\ plain c = true).

(** [t] is [s] trimmed: [s] without the white space around it, all of it
    and nothing else. *)
Definition trimmed (s t : string) : Prop :=
  (exists w1 w2, all_space w1 = true /\ all_space w2 = true /\ s = w1 +:+ t +:+ w2)
  /\ (forall w r, t = w +:+ r -> all_space w = true -> w = "")
  /\ (forall r w, t = r +:+ w -> all_space w = true -> w = "").

(** [p in s] *)
Fixpoint contains (s p : string) : bool :=
  Text.startswith s p
  || match s with
     | EmptyString => false
     | String _ s' => contains s' p
     end.

(** The error of [None += text]. *)
Definition none_plus_text : exn :=
  TypeError "unsupported operand type(s) for +=: 'NoneType' and 'str'".

(** A log entry that stands for a question and its reply. *)
Definition exchange (entry : request * reply) : Prop :=
  exists q final, turns_of entry = [user_turn q; assistant_turn final].

(** [x] occurs in [p]. *)
Fixpoint has_char (p : string) (x : ascii) : bool :=
  match p with
  | EmptyString => false
  | String c p' => Ascii.eqb c x || has_char p' x
  end.

(** The scan of [s.replace(old, new)] for a non-empty [old]. *)
Definition scan (old new s : string) : string := Text.replace_from old new 0 s.

(** ** The reply by sections, as the specification words it *)

(** (2) a blank line, the header, one bulleted line per solution. *)
Definition steps_section (ext : externals) (solutions : list value) : string :=
  match solutions with
  | [] => ""
  | _ =>
      LF +:+ LF +:+ "Recommended steps:" +:+ LF
      +:+ Text.join LF (map (fun s => "- " +:+ fmt ext s) solutions)
  end.

(** (3) a blank line and the manual annotation. *)
Definition manual_section (ext : externals) (manual_link : value) : string :=
  if truthy manual_link then LF +:+ LF +:+ manual_mark +:+ fmt ext manual_link
  else "".

(** (4) a blank line and the regulation annotation. *)
Definition regulation_section (ext : externals) (regulation_ref : value) : string :=
  if truthy regulation_ref
  then LF +:+ LF +:+ regulation_mark +:+ fmt ext regulation_ref
  else "".


(** ** Recorded answers of the services, for the examples *)

Module Demo.

Definition DQ : string := String "034" EmptyString.

(** U+00A0, the no-break space, as its two bytes. *)
Definition NBSP : string := String "194" (String "160" EmptyString).

(** [{"k1": "v1", "k2": "v2"}] as [json.dumps] writes it. *)
Definition member (kv : string * string) : string :=
  DQ +:+ kv.1 +:+ DQ +:+ ": " +:+ DQ +:+ kv.2 +:+ DQ.

Definition object_text (members : list (string * string)) : string :=
  json_object_text (Text.join ", " (map member members)).

Definition object_value (members : list (string * string)) : value :=
  VDict (map (fun kv => (kv.1, VStr kv.2)) members).

Definition ask_members : list (string * string) :=
  [("action", "ask"); ("response", "What type of heating system?")].

Definition query_members : list (string * string) :=
  [("action", "query");
   ("sql_query", "SELECT bf.description, bf.solutions FROM boiler_fault_codes bf WHERE bf.model = 'Logic'");
   ("manual_link", "http://x/manual.pdf")].

Definition miss_members : list (string * string) :=
  [("action", "query");
   ("sql_query", "SELECT bf.description FROM boiler_fault_codes bf WHERE bf.fault_code = 'F9'")].

Definition query_without_text : list (string * string) := [("action", "query")].

Definition ask_without_response : list (string * string) := [("action", "ask")].

Definition fallback_without_response : list (string * string) :=
  [("action", "fallback_reasoning"); ("manual_link", "http://x/manual.pdf")].

Definition known_objects : list (list (string * string)) :=
  [ask_members; query_members; miss_members; query_without_text;
   ask_without_response; fallback_without_response].

(** [json.loads] on the texts above; any other text the examples hand it
    ("not json") is no JSON. *)
Definition loads (s : string) : option value :=
  object_value <$> List.find (fun m => String.eqb (object_text m) s) known_objects.

(** The model's answers, by question. *)
Definition chain (question : string) (history : list turn) : outcome string :=
  if String.eqb question "What should I check first?"
  then Value ("```json" +:+ LF +:+ object_text ask_members +:+ LF +:+ "```")
  else if String.eqb question "Ideal Logic shows F1"
  then Value (object_text query_members)
  else if String.eqb question "Ideal Logic shows F9"
  then Value (object_text miss_members)
  else if String.eqb question "Look it up"
  then Value (object_text query_without_text)
  else if String.eqb question "Ask me something"
  then Value (object_text ask_without_response)
  else if String.eqb question "Any idea?"
  then Value (object_text fallback_without_response)
  else if String.eqb question "Say anything"
  then Value "not json"
  else Raised (ServiceError "model unavailable").

Definition pump_row : row :=
  [("description", VStr "Pump fault");
   ("solutions", VList [VStr "Check pump"; VStr "Check pressure"])].

(** The store's answers: the fault-code row for the rewritten query, no row
    for the F9 lookup, an error for anything else. *)
Definition rows (sql : string) : outcome (list row) :=
  if String.eqb sql "SELECT bf.description, bf.solutions FROM boiler_fault_codes bf WHERE bf.model_name = 'Logic'"
  then Value [pump_row]
  else if String.eqb sql "SELECT bf.description FROM boiler_fault_codes bf WHERE bf.fault_code = 'F9'"
  then Value []
  else Raised (ServiceError "relation or column does not exist").

(** [ast.literal_eval] on four texts. *)
Definition literal_of (s : string) : literal :=
  if String.eqb s "['check pump','check pressure']"
  then LitValue (VList [VStr "check pump"; VStr "check pressure"])
  else if String.eqb s "[1, 2]" then LitValue (VList [VInt 1; VInt 2])
  else if String.eqb s "'reset the boiler'" then LitValue (VStr "reset the boiler")
  else LitInvalid.

(** [str] of [None], booleans and integers. *)
Definition str (v : value) : string :=
  match v with
  | VNone => "None"
  | VBool true => "True"
  | VBool false => "False"
  | VInt n => NilZero.string_of_int (Z.to_int n)
  | VStr s => s
  | _ => ""
  end.

Definition ext : externals := {|
  json_loads := loads;
  json_raises := fun _ => None;
  literal_eval := literal_of;
  str_of := str;
  invoke_chain := chain;
  fetchall := rows;
  session_fault := fun _ => None
|}.

Definition ask (session_id question : string) : request :=
  Request (Some question) (Some session_id).

(** The query of the prompt's second example. *)
Definition prompt_query : string :=
  "SELECT bf.solutions, m.pdf_url FROM boiler_fault_codes bf LEFT JOIN manuals m ON bf.model = m.model_name WHERE bf.manufacturer = 'Ideal' AND bf.fault_code = 'F1'".

End Demo.

(** ** Vocabulary of the whole request *)

(** The statements of step 1: the lookup, and the insert when the session
    is unknown. *)
Definition opening (table : sessions_table) (session_id : string) : list statement :=
  SelectHistory session_id
  :: match table !! session_id with
     | Some _ => []
     | None => [InsertSession session_id []]
     end.

(** The session a statement names in its [:session_id] parameter. *)
Definition session_of (s : statement) : option string :=
  match s with
  | SelectHistory sid | InsertSession sid _ | UpdateHistory sid _ => Some sid
  | RunQuery _ => None
  end.

(** Two tables under which every session starts from the same history:
    a row with a NULL or empty history reads like no row. *)
Definition same_histories (t1 t2 : sessions_table) : Prop :=
  forall k, history_of t1 k = history_of t2 k.

(** The request is one of session [k]. *)
Definition for_session (k : string) (data : request) : bool :=
  match present (sessionId data) with
  | Some sid => String.eqb sid k
  | None => false
  end.

(** The requests of session [k] among those served, in their order. *)
Definition of_session (k : string) (requests : list (externals * request))
  : list (externals * request) :=
  List.filter (fun r => for_session k r.2) requests.

(** The replies to the requests of session [k] in a log. *)
Definition replies_of (k : string) (log : list (request * reply))
  : list (request * reply) :=
  List.filter (fun entry => for_session k entry.1) log.


(** A decoded JSON object. *)
Definition is_object (v : value) : bool :=
  match v with VDict _ => true | _ => false end.

(** The services with another [json.loads]. *)
Definition with_loads (ext : externals) (loads : string -> option value) : externals := {|
  json_loads := loads;
  json_raises := json_raises ext;
  literal_eval := literal_eval ext;
  str_of := str_of ext;
  invoke_chain := invoke_chain ext;
  fetchall := fetchall ext;
  session_fault := session_fault ext
|}.

(** A decoded object with [context_update] set to [c]: the first entry of
    a key is the one [dict_get] reads.  Other values are left as they are. *)
Definition with_context (c : value) (v : value) : value :=
  match v with
  | VDict j => VDict (("context_update", c) :: j)
  | other => other
  end.

(** ** Recorded answers that cannot be acted on *)

Module Trouble.

Definition list_text : string := "[1, 2]".

(** [{"action": "query", "sql_query": 7}] *)
Definition numbered_query_text : string :=
  "{" +:+ Demo.DQ +:+ "action" +:+ Demo.DQ +:+ ": " +:+ Demo.DQ +:+ "query"
  +:+ Demo.DQ +:+ ", " +:+ Demo.DQ +:+ "sql_query" +:+ Demo.DQ +:+ ": 7}".

Definition numbered_query : value :=
  VDict [("action", VStr "query"); ("sql_query", VInt 7)].

Definition parts_members : list (string * string) :=
  [("action", "query"); ("sql_query", "SELECT name FROM boiler_parts")].

Definition undescribed_members : list (string * string) :=
  [("action", "query");
   ("sql_query", "SELECT bf.description FROM boiler_fault_codes bf WHERE bf.fault_code = 'L2'")].

(** A row whose [description] is NULL. *)
Definition undescribed_row : row :=
  [("description", VNone); ("solutions", VList [VStr "Reset the boiler"])].

(** An answer with an action the handler does not know. *)
Definition escalate_members : list (string * string) := [("action", "escalate")].

(** Python's [s * n]. *)
Fixpoint repeat_text (s : string) (n : nat) : string :=
  match n with
  | O => ""
  | S n' => s +:+ repeat_text s n'
  end.

(** A thousand opening brackets: no JSON, and nested deeper than the
    decoder can follow within the interpreter's recursion limit. *)
Definition deep_text : string := repeat_text "[" 1000.

(** [json.loads] does not get as far as a [JSONDecodeError] on it. *)
Definition raises (s : string) : option exn :=
  if String.eqb s deep_text
  then Some (RecursionError "maximum recursion depth exceeded while decoding a JSON array from a unicode string")
  else None.

(** [json.loads] on the texts above, and on those of [Demo]. *)
Definition loads (s : string) : option value :=
  if String.eqb s list_text then Some (VList [VInt 1; VInt 2])
  else if String.eqb s numbered_query_text then Some numbered_query
  else if String.eqb s (Demo.object_text parts_members)
  then Some (Demo.object_value parts_members)
  else if String.eqb s (Demo.object_text undescribed_members)
  then Some (Demo.object_value undescribed_members)
  else if String.eqb s (Demo.object_text escalate_members)
  then Some (Demo.object_value escalate_members)
  else Demo.loads s.

Definition chain (question : string) (history : list turn) : outcome string :=
  if String.eqb question "Give me a list" then Value list_text
  else if String.eqb question "Count them" then Value numbered_query_text
  else if String.eqb question "Which parts are there?"
  then Value (Demo.object_text parts_members)
  else if String.eqb question "Ideal Logic shows L2"
  then Value (Demo.object_text undescribed_members)
  else if String.eqb question "Call someone"
  then Value (Demo.object_text escalate_members)
  else if String.eqb question "Nest it" then Value deep_text
  else Demo.chain question history.

(** The store of [Demo] with the row above; it knows no table
    [boiler_parts]. *)
Definition rows (sql : string) : outcome (list row) :=
  if String.eqb sql "SELECT bf.description FROM boiler_fault_codes bf WHERE bf.fault_code = 'L2'"
  then Value [undescribed_row]
  else Demo.rows sql.

Definition ext : externals := {|
  json_loads := loads;
  json_raises := raises;
  literal_eval := Demo.literal_of;
  str_of := Demo.str;
  invoke_chain := chain;
  fetchall := rows;
  session_fault := fun _ => None
|}.

(** A table in which session [s2] has talked before, and one in which
    session [s1] is stored with a NULL history. *)
Definition busy_table : sessions_table :=
  {[ "s2" := Some [user_turn "Hello"; assistant_turn (VStr "Which boiler is it?")] ]}.

Definition null_table : sessions_table := {[ "s1" := None ]}.

End Trouble.

(** * Properties *)

(** Unfolds the steps of the transaction monad. *)
Ltac tx_unfold :=
  unfold mbind, mret, tx_mbind, tx_ret, tx_bind, outcome_mbind, outcome_ret,
    outcome_bind, run, raise, leave, send, write, peek, attempt in *.

(** ** Text *)

Section TextFacts.
Import Text.

Lemma str_app_cons c s t : String c s +:+ t = String c (s +:+ t).
Proof. reflexivity. Qed.

Lemma str_app_nil_l t : "" +:+ t = t.
Proof. reflexivity. Qed.

Lemma str_app_nil_r s : s +:+ "" = s.
Proof. induction s as [|c s IH]; [done|]. by rewrite str_app_cons, IH. Qed.

Lemma str_app_assoc s t u : (s +:+ t) +:+ u = s +:+ t +:+ u.
Proof. induction s as [|c s IH]; [done|]. by rewrite !str_app_cons, IH. Qed.

Lemma str_app_length s t :
  String.length (s +:+ t) = String.length s + String.length t.
Proof.
  induction s as [|c s IH]; [done|]. rewrite str_app_cons. simpl. by rewrite IH.
Qed.

(** *** White space of one, two and three bytes *)

Lemma space_width_cases s :
  (space_width s = 0)
  \/ (exists a r, s = String a r /\ is_space a = true /\ space_width s = 1)
  \/ (exists a b r, s = String a (String b r) /\ is_space a = false
        /\ is_space2 a b = true /\ space_width s = 2)
  \/ (exists a b c r, s = String a (String b (String c r)) /\ is_space a = false
        /\ is_space2 a b = false /\ is_space3 a b c = true /\ space_width s = 3).
Proof.
  destruct s as [|a [|b [|c r]]]; simpl; [by left| | |].
  - destruct (is_space a) eqn:?; [right; left; by eexists _, _|by left].
  - destruct (is_space a) eqn:?; [right; left; by eexists _, _|].
    destruct (is_space2 a b) eqn:?; [right; right; left; by eexists _, _, _|by left].
  - destruct (is_space a) eqn:?; [right; left; by eexists _, _|].
    destruct (is_space2 a b) eqn:?; [right; right; left; by eexists _, _, _|].
    destruct (is_space3 a b c) eqn:?; [|by left].
    right; right; right. by eexists _, _, _, _.
Qed.

(** [lstrip] and [blank] pass over one white-space character at a time. *)
Lemma lstrip_step s :
  lstrip s = match space_width s with
             | 0 => s
             | n => lstrip (slice_from n s)
             end.
Proof.
  destruct s as [|a [|b [|c r]]]; simpl; [done| | |].
  - by destruct (is_space a).
  - destruct (is_space a); [done|]. by destruct (is_space2 a b).
  - destruct (is_space a); [done|]. destruct (is_space2 a b); [done|].
    by destruct (is_space3 a b c).
Qed.

Lemma blank_step s :
  blank s = match s with
            | EmptyString => true
            | _ => match space_width s with
                   | 0 => false
                   | n => blank (slice_from n s)
                   end
            end.
Proof.
  destruct s as [|a [|b [|c r]]]; simpl; [done| | |].
  - by destruct (is_space a).
  - destruct (is_space a); [done|]. by destruct (is_space2 a b).
  - destruct (is_space a); [done|]. destruct (is_space2 a b); [done|].
    by destruct (is_space3 a b c).
Qed.

Lemma space_width_le s : space_width s <= String.length s.
Proof.
  destruct (space_width_cases s) as [->|[(a & r & -> & _ & ->)
    |[(a & b & r & -> & _ & _ & ->)|(a & b & c & r & -> & _ & _ & _ & ->)]]];
    simpl; lia.
Qed.

Lemma slice_from_exact s n :
  n <= String.length s -> String.length (slice_from n s) = String.length s - n.
Proof.
  revert s. induction n as [|n IH]; intros [|c s]; simpl; try lia. intros. apply IH. lia.
Qed.

Lemma slice_from_app_l n s t :
  n <= String.length s -> slice_from n (s +:+ t) = slice_from n s +:+ t.
Proof.
  revert s. induction n as [|n IH]; intros [|c s]; simpl; try done; try lia.
  intros. apply IH. lia.
Qed.

(** A white-space character at the start of [s] is one at the start of
    [s +:+ t]. *)
Lemma space_width_app s t :
  space_width s <> 0 -> space_width (s +:+ t) = space_width s.
Proof.
  destruct (space_width_cases s) as [->|[(a & r & -> & Ha & ->)
    |[(a & b & r & -> & Ha & Hb & ->)|(a & b & c & r & -> & Ha & Hb & Hc & ->)]]];
    [done|..]; intros _; simpl; by rewrite ?Ha, ?Hb, ?Hc.
Qed.

(** The bytes that follow the first of a white-space character continue
    it; the first byte of one does not. *)
Lemma space2_continues a b : is_space2 a b = true -> is_continuation b = true.
Proof.
  unfold is_space2, is_continuation. cbv zeta.
  intros [_ [H|H]%orb_true_iff]%andb_true_iff; apply Nat.eqb_eq in H; by rewrite H.
Qed.

Lemma space3_continues a b c :
  is_space3 a b c = true -> is_continuation b = true /\ is_continuation c = true.
Proof.
  unfold is_space3, is_continuation. cbv zeta. intros H.
  repeat match type of H with
  | (_ || _)%bool = true => apply orb_true_iff in H as [H|H]
  | (_ && _)%bool = true => apply andb_true_iff in H as [? H]
  end;
  repeat match goal with
  | H : (_ =? _)%nat = true |- _ => apply Nat.eqb_eq in H
  | H : (_ <=? _)%nat = true |- _ => apply Nat.leb_le in H
  | H : (_ && _)%bool = true |- _ => apply andb_true_iff in H as [? ?]
  end;
  split; apply andb_true_iff; split; apply Nat.leb_le; lia.
Qed.

Lemma space_not_continuation a : is_space a = true -> is_continuation a = false.
Proof.
  unfold is_space, is_continuation. cbv zeta. intros H.
  apply andb_false_iff. left. apply Nat.leb_gt.
  repeat match type of H with
  | (_ || _)%bool = true => apply orb_true_iff in H as [H|H]
  | (_ && _)%bool = true => apply andb_true_iff in H as [? H]
  end;
  repeat match goal with
  | H : (_ <=? _)%nat = true |- _ => apply Nat.leb_le in H
  end; lia.
Qed.

Lemma space2_lead a b : is_space2 a b = true -> is_continuation a = false.
Proof.
  unfold is_space2, is_continuation. cbv zeta.
  intros [H _]%andb_true_iff. apply Nat.eqb_eq in H. by rewrite H.
Qed.

Lemma space3_lead a b c : is_space3 a b c = true -> is_continuation a = false.
Proof.
  unfold is_space3, is_continuation. cbv zeta. intros H.
  repeat match type of H with
  | (_ || _)%bool = true => apply orb_true_iff in H as [H|H]
  | (_ && _)%bool = true => apply andb_true_iff in H as [H _]
  end; apply Nat.eqb_eq in H; by rewrite H.
Qed.

(** Text that starts with a white-space character starts with a byte that
    continues nothing. *)
Lemma space_width_lead a r :
  space_width (String a r) <> 0 -> is_continuation a = false.
Proof.
  destruct (space_width_cases (String a r)) as [->|[(a' & r' & [= <- <-] & Ha & _)
    |[(a' & b & r' & [= <- ->] & _ & Hb & _)
     |(a' & b & c & r' & [= <- ->] & _ & _ & Hc & _)]]]; [done|..]; intros _.
  - by apply space_not_continuation.
  - by eapply space2_lead.
  - by eapply space3_lead.
Qed.

Lemma blank_width s : blank s = true -> s <> "" -> space_width s <> 0.
Proof. rewrite blank_step. destruct s; [done|]. by destruct (space_width _). Qed.

Lemma blank_lead a r : blank (String a r) = true -> is_continuation a = false.
Proof. intros H. eapply space_width_lead, blank_width; done. Qed.

(** What is no white-space character at the start of [s] is none when
    white space follows [s]. *)
Lemma space_width_before s w :
  s <> "" -> space_width s = 0 -> blank w = true -> space_width (s +:+ w) = 0.
Proof.
  intros Hs H0 Hw. destruct w as [|x w]; [by rewrite str_app_nil_r|].
  pose proof (blank_lead _ _ Hw) as Hx.
  destruct s as [|a [|b [|c r]]]; [done|..]; simpl in *.
  - destruct (is_space a); [done|].
    destruct (is_space2 a x) eqn:E2; [apply space2_continues in E2; congruence|].
    destruct w as [|y w]; [done|].
    destruct (is_space3 a x y) eqn:E3; [|done].
    apply space3_continues in E3 as [? ?]; congruence.
  - destruct (is_space a); [done|]. destruct (is_space2 a b); [done|].
    destruct (is_space3 a b x) eqn:E3; [|done].
    apply space3_continues in E3 as [? ?]; congruence.
  - done.
Qed.

(** Induction on the length of a text. *)
Lemma length_ind (P : string -> Prop) :
  (forall s, (forall t, String.length t < String.length s -> P t) -> P s) ->
  forall s, P s.
Proof.
  intros H s. remember (String.length s) as n eqn:Hn.
  revert s Hn. induction n as [n IH] using lt_wf_ind. intros s ->.
  apply H. intros t Ht. by apply (IH _ Ht).
Qed.

Lemma slice_shorter n s :
  n <> 0 -> n <= String.length s -> String.length (slice_from n s) < String.length s.
Proof. intros. rewrite slice_from_exact by done. lia. Qed.

Lemma slice_split_from n s :
  n <= String.length s -> exists p, String.length p = n /\ s = p +:+ slice_from n s.
Proof.
  revert s. induction n as [|n IH]; intros s Hn; [by exists ""|].
  destruct s as [|c s]; [simpl in Hn; lia|].
  destruct (IH s) as (p & Hp & Hs); [simpl in Hn; lia|].
  exists (String c p). split; [simpl; by rewrite Hp|].
  rewrite str_app_cons. cbn [slice_from]. by rewrite <- Hs.
Qed.

(** One white-space character is blank text. *)
Lemma blank_one p r :
  space_width (p +:+ r) = String.length p -> p <> "" -> blank p = true.
Proof.
  intros Hw Hp.
  destruct (space_width_cases (p +:+ r)) as [E|[(a & r' & E & Ha & E1)
    |[(a & b & r' & E & Ha & Hb & E1)|(a & b & c & r' & E & Ha & Hb & Hc & E1)]]];
    rewrite Hw in *.
  - by destruct p.
  - destruct p as [|x [|y p]]; try done. injection E as -> _. simpl. by rewrite Ha.
  - destruct p as [|x [|y [|z p]]]; try done. injection E as -> -> _. simpl.
    by rewrite Ha, Hb.
  - destruct p as [|x [|y [|z [|u p]]]]; try done. injection E as -> -> -> _. simpl.
    by rewrite Ha, Hb, Hc.
Qed.

Lemma blank_app a b : blank a = true -> blank b = true -> blank (a +:+ b) = true.
Proof.
  induction a as [a IH] using length_ind. intros Ha Hb.
  destruct a as [|c a]; [done|].
  pose proof (blank_width _ Ha ltac:(done)) as Hw.
  rewrite blank_step in Ha |- *. rewrite str_app_cons, <- str_app_cons.
  rewrite space_width_app by done.
  destruct (space_width (String c a)) as [|n] eqn:E; [done|].
  pose proof (space_width_le (String c a)) as Hle. rewrite E in Hle.
  rewrite slice_from_app_l by done. apply IH; [|done..].
  apply slice_shorter; [done|lia].
Qed.

(** White space after [s] leaves [s] as blank as it is. *)
Lemma blank_before s w : blank w = true -> blank (s +:+ w) = blank s.
Proof.
  intros Hw. induction s as [s IH] using length_ind.
  destruct s as [|c s]; [done|].
  rewrite (blank_step (String c s)), (blank_step (String c s +:+ w)).
  rewrite str_app_cons, <- str_app_cons.
  destruct (space_width (String c s)) as [|n] eqn:E.
  - by rewrite space_width_before.
  - rewrite space_width_app, E by (by rewrite E).
    pose proof (space_width_le (String c s)) as Hle. rewrite E in Hle.
    rewrite slice_from_app_l by done. apply IH. apply slice_shorter; [done|lia].
Qed.

(** *** [lstrip], [rstrip] and [strip] *)

Lemma lstrip_space w s : all_space w = true -> lstrip (w +:+ s) = lstrip s.
Proof.
  unfold all_space. induction w as [w IH] using length_ind. intros Hw.
  destruct w as [|c w]; [done|].
  pose proof (blank_width _ Hw ltac:(done)) as Hn.
  rewrite blank_step in Hw. rewrite (lstrip_step (String c w +:+ s)).
  rewrite space_width_app by done.
  destruct (space_width (String c w)) as [|n] eqn:E; [done|].
  pose proof (space_width_le (String c w)) as Hle. rewrite E in Hle.
  rewrite slice_from_app_l by done. apply IH; [|done].
  apply slice_shorter; [done|lia].
Qed.

Lemma rstrip_space s w : all_space w = true -> rstrip (s +:+ w) = rstrip s.
Proof.
  unfold all_space. intros Hw. induction s as [|c s IH].
  - destruct w as [|x w]; [done|]. rewrite str_app_nil_l. cbn [rstrip]. by rewrite Hw.
  - rewrite str_app_cons. cbn [rstrip].
    change (String c (s +:+ w)) with (String c s +:+ w).
    rewrite blank_before by done. by rewrite IH.
Qed.

(** Blank text ends with a blank or with a byte that continues a
    character. *)
Lemma blank_last s c :
  blank (s +:+ String c "") = true -> is_space c = true \/ is_continuation c = true.
Proof.
  induction s as [s IH] using length_ind. intros Hb.
  destruct (space_width_cases (s +:+ String c "")) as [E|[(a & r & E & Ha & E1)
    |[(a & b & r & E & Ha & Hb2 & E1)|(a & b & x & r & E & Ha & Hb2 & Hc & E1)]]].
  - exfalso. eapply blank_width; [done| |done]. by destruct s.
  - destruct s as [|y s]; [injection E as -> _; by left|].
    rewrite blank_step, E1 in Hb. rewrite str_app_cons in *. simpl in Hb.
    apply (IH s); [simpl; lia|done].
  - destruct s as [|y [|z s]].
    + done.
    + injection E as -> -> _. right. by eapply space2_continues.
    + rewrite blank_step, E1 in Hb. rewrite !str_app_cons in *. simpl in Hb.
      apply (IH s); [simpl; lia|done].
  - destruct s as [|y [|z [|u s]]].
    + done.
    + done.
    + injection E as -> -> -> _. right. by eapply space3_continues.
    + rewrite blank_step, E1 in Hb. rewrite !str_app_cons in *. simpl in Hb.
      apply (IH s); [simpl; lia|done].
Qed.

Lemma plain_kept c : plain c = true -> is_space c = false /\ is_continuation c = false.
Proof.
  unfold plain, is_continuation. cbv zeta.
  intros [Hn Hs%negb_true_iff]%andb_true_iff. split; [done|].
  apply Nat.ltb_lt in Hn. apply andb_false_iff. left. apply Nat.leb_gt. lia.
Qed.

Lemma plain_no_space c r : plain c = true -> space_width (String c r) = 0.
Proof.
  intros Hc. destruct (space_width (String c r)) eqn:E; [done|].
  assert (Hl : is_continuation c = false) by (by apply plain_kept).
  destruct (plain_kept c Hc) as [Hs _].
  unfold plain in Hc. apply andb_true_iff in Hc as [Hn _]. apply Nat.ltb_lt in Hn.
  simpl in E. rewrite Hs in E.
  destruct r as [|b r]; [done|].
  destruct (is_space2 c b) eqn:E2.
  { unfold is_space2 in E2. cbv zeta in E2. apply andb_true_iff in E2 as [H _].
    apply Nat.eqb_eq in H. lia. }
  destruct r as [|x r]; [done|].
  destruct (is_space3 c b x) eqn:E3; [|done].
  unfold is_space3 in E3. cbv zeta in E3.
  repeat match type of E3 with
  | (_ || _)%bool = true => apply orb_true_iff in E3 as [E3|E3]
  | (_ && _)%bool = true => apply andb_true_iff in E3 as [E3 _]
  end; apply Nat.eqb_eq in E3; lia.
Qed.

Lemma rstrip_keep s c :
  plain c = true -> rstrip (s +:+ String c "") = s +:+ String c "".
Proof.
  intros Hc. destruct (plain_kept c Hc) as [Hs Hk].
  assert (Hnb : forall t, blank (t +:+ String c "") = false).
  { intros t. destruct (blank _) eqn:E; [|done].
    apply blank_last in E as [?|?]; congruence. }
  induction s as [|a s IH].
  - rewrite str_app_nil_l. cbn [rstrip].
    pose proof (Hnb "") as H0. rewrite str_app_nil_l in H0. by rewrite H0.
  - rewrite str_app_cons. cbn [rstrip].
    change (String a (s +:+ String c "")) with (String a s +:+ String c "").
    rewrite Hnb. by rewrite IH.
Qed.

Lemma strip_plain w1 x w2 :
  all_space w1 = true -> all_space w2 = true -> plain_ends x ->
  strip (w1 +:+ x +:+ w2) = x.
Proof.
  intros H1 H2 [(c & x' & -> & Hc) (y & b & Hy & Hb)].
  unfold strip. rewrite lstrip_space by done.
  rewrite str_app_cons, lstrip_step, plain_no_space by done.
  rewrite <- str_app_cons.
  rewrite rstrip_space by done. rewrite Hy. by apply rstrip_keep.
Qed.

(** What [lstrip] removes and what [rstrip] removes is white space. *)
Lemma lstrip_removed s : exists w, all_space w = true /\ s = w +:+ lstrip s.
Proof.
  unfold all_space. induction s as [s IH] using length_ind.
  rewrite lstrip_step. destruct (space_width s) as [|n] eqn:E; [by exists ""|].
  pose proof (space_width_le s) as Hle. rewrite E in Hle.
  destruct (slice_split_from (S n) s Hle) as (p & Hp & Hs).
  destruct (IH (slice_from (S n) s)) as (w & Hw & Hr).
  { apply slice_shorter; [done|lia]. }
  exists (p +:+ w). split.
  - apply blank_app; [|done]. apply (blank_one p (slice_from (S n) s)).
    + by rewrite <- Hs, E, Hp.
    + by destruct p.
  - rewrite str_app_assoc, <- Hr. done.
Qed.

Lemma rstrip_removed s : exists w, all_space w = true /\ s = rstrip s +:+ w.
Proof.
  unfold all_space. induction s as [|c s (w & Hw & Hs)]; [by exists ""|].
  cbn [rstrip]. destruct (blank (String c s)) eqn:E; [by eexists|].
  exists w. split; [done|]. by rewrite str_app_cons, <- Hs.
Qed.

(** What [lstrip] leaves starts with no white space, what [rstrip] leaves
    ends with none. *)
Lemma lstrip_clean s : space_width (lstrip s) = 0.
Proof.
  induction s as [s IH] using length_ind.
  rewrite lstrip_step. destruct (space_width s) as [|n] eqn:E; [done|].
  apply IH. pose proof (space_width_le s) as Hle. rewrite E in Hle.
  apply slice_shorter; [done|lia].
Qed.

Lemma no_space_prefix t w r :
  space_width t = 0 -> t = w +:+ r -> all_space w = true -> w = "".
Proof.
  unfold all_space. intros H0 -> Hw. destruct w as [|c w]; [done|].
  pose proof (blank_width _ Hw ltac:(done)) as Hn.
  by rewrite space_width_app in H0.
Qed.

Lemma rstrip_clean s r w : rstrip s = r +:+ w -> all_space w = true -> w = "".
Proof.
  unfold all_space. intros Hs Hw. revert r Hs. induction s as [|c s IH]; intros r Hs.
  - by destruct r, w.
  - cbn [rstrip] in Hs. destruct (blank (String c s)) eqn:E.
    + by destruct r, w.
    + destruct r as [|a r].
      * rewrite str_app_nil_l in Hs. subst w.
        destruct (rstrip_removed s) as (t & Ht & Hdec).
        assert (blank (String c s) = true); [|congruence].
        rewrite Hdec, <- str_app_cons. by apply blank_app.
      * rewrite str_app_cons in Hs. injection Hs as _ Hs. by apply (IH r).
Qed.

Lemma space_width_prefix p t :
  space_width (p +:+ t) = 0 -> space_width p = 0.
Proof.
  intros H. destruct (space_width p) eqn:E; [done|].
  by rewrite space_width_app, E in H by (by rewrite E).
Qed.

(** [strip] trims: it removes white space at both ends, and all of it. *)
Lemma strip_trimmed s : trimmed s (strip s).
Proof.
  unfold strip. destruct (lstrip_removed s) as (w1 & H1 & Hs).
  destruct (rstrip_removed (lstrip s)) as (w2 & H2 & Hl).
  assert (H0 : space_width (rstrip (lstrip s)) = 0).
  { apply (space_width_prefix _ w2). rewrite <- Hl. apply lstrip_clean. }
  split; [|split].
  - exists w1, w2. repeat split; try done. by rewrite <- Hl.
  - intros w r. by apply no_space_prefix.
  - intros r w. apply rstrip_clean.
Qed.

Lemma lstrip_idem s : lstrip (lstrip s) = lstrip s.
Proof. by rewrite (lstrip_step (lstrip s)), lstrip_clean. Qed.

Lemma rstrip_idem s : rstrip (rstrip s) = rstrip s.
Proof.
  destruct (rstrip_removed (rstrip s)) as (w & Hw & Hs).
  rewrite (rstrip_clean s _ w Hs Hw), str_app_nil_r in Hs. done.
Qed.

Lemma strip_idem s : strip (strip s) = strip s.
Proof.
  unfold strip.
  destruct (rstrip_removed (lstrip s)) as (w2 & H2 & Hl).
  assert (H0 : space_width (rstrip (lstrip s)) = 0).
  { apply (space_width_prefix _ w2). rewrite <- Hl. apply lstrip_clean. }
  rewrite (lstrip_step (rstrip _)), H0. apply rstrip_idem.
Qed.

Lemma has_char_app a b x : has_char (a +:+ b) x = has_char a x || has_char b x.
Proof.
  induction a as [|c a IH]; [done|]. rewrite str_app_cons. simpl.
  by rewrite IH, orb_assoc.
Qed.

Lemma has_char_lstrip s x : has_char s x = false -> has_char (lstrip s) x = false.
Proof.
  destruct (lstrip_removed s) as (w & _ & Hs). rewrite Hs at 1.
  rewrite has_char_app. by intros [_ ?]%orb_false_iff.
Qed.

Lemma has_char_rstrip s x : has_char s x = false -> has_char (rstrip s) x = false.
Proof.
  destruct (rstrip_removed s) as (w & _ & Hs). rewrite Hs at 1.
  rewrite has_char_app. by intros [? _]%orb_false_iff.
Qed.

Lemma startswith_app p s : startswith (p +:+ s) p = true.
Proof.
  induction p as [|c p IH]; [by destruct s|].
  rewrite str_app_cons. simpl. by rewrite Ascii.eqb_refl, IH.
Qed.

Lemma slice_from_app p s : slice_from (String.length p) (p +:+ s) = s.
Proof. induction p as [|c p IH]; [by destruct s|]. by rewrite str_app_cons. Qed.

Lemma slice_to_app s p : slice_to (String.length s) (s +:+ p) = s.
Proof.
  induction s as [|c s IH]; [by destruct p|].
  rewrite str_app_cons. simpl. by rewrite IH.
Qed.

Lemma endswith_app s p : endswith (s +:+ p) p = true.
Proof.
  unfold endswith. rewrite str_app_length.
  replace (String.length s + String.length p - String.length p)
    with (String.length s) by lia.
  rewrite slice_from_app, String.eqb_refl.
  apply andb_true_iff; split; [|done]. apply Nat.leb_le. lia.
Qed.

Lemma slice_to_last_app s p : slice_to_last (String.length p) (s +:+ p) = s.
Proof.
  unfold slice_to_last. rewrite str_app_length.
  replace (String.length s + String.length p - String.length p)
    with (String.length s) by lia.
  apply slice_to_app.
Qed.

Lemma last_char_app s c t :
  last_char (s +:+ String c t) = last_char (String c t).
Proof.
  induction s as [|a s IH]; [done|].
  rewrite str_app_cons.
  change (last_char (String a (s +:+ String c t)))
    with (match s +:+ String c t with
          | "" => Some a
          | _ => last_char (s +:+ String c t)
          end).
  rewrite IH. by destruct s.
Qed.

Lemma slice_split n s : s = slice_to n s +:+ slice_from n s.
Proof.
  revert s. induction n as [|n IH]; intros [|c s]; simpl; try done.
  rewrite str_app_cons. by rewrite <- IH.
Qed.

Lemma endswith_last s p c :
  endswith s p = true -> last_char p = Some c -> last_char s = Some c.
Proof.
  unfold endswith. intros [_ E%String.eqb_eq]%andb_true_iff Hp.
  rewrite (slice_split (String.length s - String.length p) s), E.
  destruct p as [|a p]; [done|]. by rewrite last_char_app.
Qed.

End TextFacts.

(** ** The three wrappings of an answer *)

Section Fences.
Import Text.

Lemma object_plain body : plain_ends (json_object_text body).
Proof.
  split.
  - by exists "{"%char, (body +:+ "}").
  - exists ("{" +:+ body), "}"%char. split; [|done].
    unfold json_object_text. by rewrite str_app_assoc.
Qed.

(** White space starts with no plain character. *)
Lemma blank_first c w : all_space (String c w) = true -> plain c = false.
Proof.
  unfold all_space. intros Hw. destruct (plain c) eqn:Hc; [|done].
  exfalso. eapply blank_width; [done|done|]. by apply plain_no_space.
Qed.

Lemma space_not_backtick c w :
  all_space (String c w) = true -> Ascii.eqb "`" c = false.
Proof.
  intros H%blank_first. destruct (Ascii.eqb_spec "`" c) as [<-|]; [done|done].
Qed.

Lemma space_not_j c w : all_space (String c w) = true -> Ascii.eqb "j" c = false.
Proof.
  intros H%blank_first. destruct (Ascii.eqb_spec "j" c) as [<-|]; [done|done].
Qed.

(** The fenced body: the object between white space. *)
Lemma padded_no_fence w body rest :
  all_space w = true ->
  startswith (w +:+ json_object_text body +:+ rest) "```" = false.
Proof.
  intros Hw. destruct w as [|c w]; [done|].
  rewrite str_app_cons. cbn [startswith].
  by rewrite (space_not_backtick c w).
Qed.

Lemma padded_no_tag w body rest :
  all_space w = true ->
  startswith ("```" +:+ w +:+ json_object_text body +:+ rest) "```json" = false.
Proof.
  intros Hw. destruct w as [|c w]; [done|].
  rewrite !str_app_cons, str_app_nil_l. cbn [startswith].
  rewrite !Ascii.eqb_refl. cbn [andb]. by rewrite (space_not_j c w).
Qed.

Lemma object_no_closing_fence body : endswith (json_object_text body) "```" = false.
Proof.
  destruct (endswith _ _) eqn:E; [|done].
  apply (endswith_last _ _ "`"%char) in E; [|done].
  unfold json_object_text in E.
  replace ("{" +:+ body +:+ "}") with (("{" +:+ body) +:+ "}") in E by apply str_app_assoc.
  by rewrite last_char_app in E.
Qed.

Lemma strip_fences_via s s0 s1 s2 s3 :
  strip s = s0 ->
  (if startswith s0 "```json" then slice_from 7 s0 else s0) = s1 ->
  (if startswith s1 "```" then slice_from 3 s1 else s1) = s2 ->
  (if endswith s2 "```" then slice_to_last 3 s2 else s2) = s3 ->
  strip_fences s = strip s3.
Proof. by intros <- <- <- <-. Qed.

Lemma strip_object body : strip (json_object_text body) = json_object_text body.
Proof.
  rewrite <- (str_app_nil_r (json_object_text body)) at 1.
  by apply (strip_plain "" _ ""), object_plain.
Qed.

Lemma strip_fences_plain body a1 a2 :
  all_space a1 = true -> all_space a2 = true ->
  strip_fences (a1 +:+ json_object_text body +:+ a2) = json_object_text body.
Proof.
  intros H1 H2. rewrite <- (strip_object body) at 2.
  apply (strip_fences_via _ (json_object_text body) (json_object_text body)
           (json_object_text body)).
  - by apply strip_plain, object_plain.
  - done.
  - done.
  - by rewrite object_no_closing_fence.
Qed.

(** Both fenced forms reach the same text once the opening fence is off. *)
Lemma after_opening_fence body w3 w4 s :
  all_space w3 = true -> all_space w4 = true ->
  s = w3 +:+ json_object_text body +:+ w4 +:+ "```" ->
  strip (if endswith (if startswith s "```" then slice_from 3 s else s) "```"
         then slice_to_last 3 (if startswith s "```" then slice_from 3 s else s)
         else (if startswith s "```" then slice_from 3 s else s))
  = json_object_text body.
Proof.
  intros H3 H4 ->. rewrite padded_no_fence by done.
  replace (w3 +:+ json_object_text body +:+ w4 +:+ "```")
    with ((w3 +:+ json_object_text body +:+ w4) +:+ "```") by (by rewrite !str_app_assoc).
  rewrite endswith_app, (slice_to_last_app _ "```").
  by apply strip_plain, object_plain.
Qed.

Lemma fenced_plain (tag inner : string) :
  plain_ends ("```" +:+ tag +:+ inner +:+ "```").
Proof.
  split; [by eexists _, _|].
  exists ("```" +:+ tag +:+ inner +:+ "``"), "`"%char. split; [|done].
  by rewrite !str_app_assoc.
Qed.

Lemma strip_fences_tagged body b1 b2 b3 b4 :
  all_space b1 = true -> all_space b2 = true ->
  all_space b3 = true -> all_space b4 = true ->
  strip_fences (b1 +:+ "```json" +:+ b3 +:+ json_object_text body +:+ b4 +:+ "```" +:+ b2)
  = json_object_text body.
Proof.
  intros H1 H2 H3 H4.
  set (rest := b3 +:+ json_object_text body +:+ b4 +:+ "```").
  etransitivity; [|exact (after_opening_fence body b3 b4 rest H3 H4 eq_refl)].
  eapply (strip_fences_via _ ("```json" +:+ rest) rest); [| |reflexivity|reflexivity].
  - replace (b1 +:+ "```json" +:+ b3 +:+ json_object_text body +:+ b4 +:+ "```" +:+ b2)
      with (b1 +:+ ("```json" +:+ rest) +:+ b2) by (unfold rest; by rewrite !str_app_assoc).
    apply (strip_plain b1 ("```json" +:+ rest) b2); [done|done|].
    replace ("```json" +:+ rest)
      with ("```" +:+ "json" +:+ (b3 +:+ json_object_text body +:+ b4) +:+ "```")
      by (unfold rest; by rewrite !str_app_assoc).
    apply fenced_plain.
  - by rewrite (startswith_app "```json"), (slice_from_app "```json").
Qed.

Lemma strip_fences_bare body c1 c2 c3 c4 :
  all_space c1 = true -> all_space c2 = true ->
  all_space c3 = true -> all_space c4 = true ->
  strip_fences (c1 +:+ "```" +:+ c3 +:+ json_object_text body +:+ c4 +:+ "```" +:+ c2)
  = json_object_text body.
Proof.
  intros H1 H2 H3 H4.
  set (rest := c3 +:+ json_object_text body +:+ c4 +:+ "```").
  assert (Hopen : strip_fences (c1 +:+ "```" +:+ rest +:+ c2)
                  = strip (if endswith rest "```" then slice_to_last 3 rest else rest)).
  { apply (strip_fences_via _ ("```" +:+ rest) ("```" +:+ rest) rest); try done.
    - replace (c1 +:+ "```" +:+ rest +:+ c2) with (c1 +:+ ("```" +:+ rest) +:+ c2)
        by (by rewrite !str_app_assoc).
      apply (strip_plain c1 ("```" +:+ rest) c2); [done|done|].
      replace ("```" +:+ rest)
        with ("```" +:+ "" +:+ (c3 +:+ json_object_text body +:+ c4) +:+ "```")
        by (unfold rest; by rewrite !str_app_assoc).
      apply fenced_plain.
    - unfold rest. by rewrite padded_no_tag.
    - by rewrite (startswith_app "```"), (slice_from_app "```"). }
  replace (c1 +:+ "```" +:+ c3 +:+ json_object_text body +:+ c4 +:+ "```" +:+ c2)
    with (c1 +:+ "```" +:+ rest +:+ c2) by (unfold rest; by rewrite !str_app_assoc).
  rewrite Hopen.
  pose proof (after_opening_fence body c3 c4 rest H3 H4 eq_refl) as Hrest.
  assert (Hnf : startswith rest "```" = false) by (unfold rest; by apply padded_no_fence).
  by rewrite Hnf in Hrest.
Qed.

(** C4. The text of a JSON object, bare, inside a [json]-tagged fence or
    inside a plain fence, with any white space around it and around the
    fences, is handed to [json.loads] as the same text; the six fields read
    from it, or the failure to decode it, are therefore the same for the
    three forms. *)
Theorem fence_styles_agree (ext : externals) (members : string)
    (a1 a2 b1 b2 b3 b4 c1 c2 c3 c4 : string) :
  forallb all_space [a1; a2; b1; b2; b3; b4; c1; c2; c3; c4] = true ->
  let text := json_object_text members in
  let decoded :=
    match json_loads ext text with
    | Some llm_json => Some (read_decision llm_json)
    | None =>
        match json_raises ext text with
        | None => None
        | Some e => Some (Raised e)
        end
    end in
  parse_decision ext (a1 +:+ text +:+ a2) = decoded
  /\ parse_decision ext
       (b1 +:+ "```json" +:+ b3 +:+ text +:+ b4 +:+ "```" +:+ b2) = decoded
  /\ parse_decision ext
       (c1 +:+ "```" +:+ c3 +:+ text +:+ c4 +:+ "```" +:+ c2) = decoded.
Proof.
  intros H text decoded. simpl in H.
  repeat match type of H with _ && _ = true => apply andb_true_iff in H as [? H] end.
  unfold parse_decision, decoded, text.
  rewrite strip_fences_plain, strip_fences_tagged, strip_fences_bare by done.
  done.
Qed.

End Fences.

(** C4 on the "ask" answer: its three forms decode to the same decision,
    also with a no-break space before them. *)
Lemma fence_styles_agree_witness :
  let text := Demo.object_text Demo.ask_members in
  let decoded :=
    Some (Value (Decision (VStr "ask") (VStr "What type of heating system?")
                   (VDict []) VNone (VStr "") (VStr ""))) in
  parse_decision Demo.ext (Demo.NBSP +:+ text +:+ LF) = decoded
  /\ parse_decision Demo.ext
       ("```json" +:+ LF +:+ text +:+ LF +:+ "```" +:+ LF) = decoded
  /\ parse_decision Demo.ext
       (Demo.NBSP +:+ "```" +:+ "" +:+ text +:+ " " +:+ "```" +:+ "") = decoded.
Proof.
  exact (fence_styles_agree Demo.ext
           (Text.join ", " (map Demo.member Demo.ask_members))
           Demo.NBSP LF "" LF LF LF Demo.NBSP "" "" " " eq_refl).
Defined.

(** ** The transaction, stage by stage *)

Section Handler.
Context (ext : externals).

Lemma execute_action_frame d c :
  execute_action ext d c
  = (acted ext d, Conn (sessions c) (sent c ++ map RunQuery (queries_of d))).
Proof.
  unfold acted, execute_action, queries_of, execute_query. tx_unfold.
  destruct c as [t l]. simpl.
  destruct (eq_text (action d) "query"); simpl.
  - destruct (truthy (sql_query d)); simpl; [|by rewrite app_nil_r].
    destruct (sql_query d); simpl; try by rewrite app_nil_r.
    destruct (fetchall ext s) as [[|r rs]|e]; simpl; try done.
    by destruct (format_row _ _ _ _).
  - rewrite app_nil_r.
    destruct (eq_text (action d) "fallback_reasoning"); simpl.
    + by destruct (annotate _ _ _ _).
    + by destruct (eq_text (action d) "ask").
Qed.

Lemma history_of_created table sid sid' :
  history_of (created table sid) sid' = history_of table sid'.
Proof.
  unfold created, history_of. destruct (table !! sid) eqn:E; [done|].
  destruct (decide (sid = sid')) as [->|Hne].
  - by rewrite lookup_insert_eq, E.
  - by rewrite lookup_insert_ne.
Qed.

(** What step 1 does: it raises, or it yields the stored history and
    leaves the session created. *)
Lemma load_history_cases sid table l :
  (exists e l', load_history ext sid (Conn table l) = (Raise e, Conn table l')
                /\ (session_fault ext OpSelect = Some e
                    \/ session_fault ext OpInsert = Some e))
  \/ (exists l', load_history ext sid (Conn table l)
                = (Next (history_of table sid), Conn (created table sid) l')
              /\ queries_run l' = queries_run l).
Proof.
  assert (Hq : forall s, queries_run [s] = [] -> queries_run (l ++ [s]) = queries_run l).
  { intros s Hs. unfold queries_run in *. by rewrite flat_map_app, Hs, app_nil_r. }
  unfold load_history, select_history, insert_session, created, history_of.
  tx_unfold. simpl.
  destruct (session_fault ext OpSelect); simpl; [by eauto 6|].
  destruct (table !! sid) as [[[|t h]|]|] eqn:E; simpl; eauto.
  destruct (session_fault ext OpInsert); simpl; [by eauto 6|].
  right. eexists. split; [done|].
  unfold queries_run in *. by rewrite !flat_map_app, !app_nil_r.
Qed.

Lemma created_lookup table sid : is_Some (created table sid !! sid).
Proof.
  unfold created. destruct (table !! sid) eqn:E; [by rewrite E|].
  by rewrite lookup_insert_eq.
Qed.

Lemma insert_created table sid h :
  <[sid := h]> (created table sid) = <[sid := h]> table.
Proof.
  unfold created. destruct (table !! sid); [done|]. apply insert_insert_eq.
Qed.

Lemma acted_no_return d r : acted ext d <> Return r.
Proof.
  unfold acted, execute_action, execute_query. tx_unfold. simpl.
  destruct (eq_text (action d) "query"); simpl.
  - destruct (truthy (sql_query d)); simpl; [|done].
    destruct (sql_query d); simpl; try done.
    destruct (fetchall ext s) as [[|r' rs]|e]; simpl; try done.
    by destruct (format_row _ _ _ _).
  - destruct (eq_text (action d) "fallback_reasoning"); simpl.
    + by destruct (annotate _ _ _ _).
    + by destruct (eq_text (action d) "ask").
Qed.

Lemma in_transaction_inv sid q table fl c :
  in_transaction ext sid q (Conn table []) = (fl, c) ->
  match fl with
  | Raise _ => True
  | Return r =>
      exists t,
        invoke_chain ext q (history_of table sid ++ [user_turn q]) = Value t
        /\ parse_decision ext t = None
        /\ r = decode_failure t
        /\ sessions c = created table sid
  | Next r =>
      exists t d final sq,
        invoke_chain ext q (history_of table sid ++ [user_turn q]) = Value t
        /\ parse_decision ext t = Some (Value d)
        /\ acted ext d = Next (final, sq)
        /\ r = jsonify (ok_body sid d final sq) 200
        /\ sessions c
           = <[sid := Some (history_of table sid
                            ++ [user_turn q; assistant_turn final])]> table
        /\ queries_run (sent c) = queries_of d
  end.
Proof.
  unfold in_transaction. unfold mbind at 1, tx_mbind, tx_bind.
  destruct (load_history_cases sid table []) as [(e & l' & -> & _)|(l' & -> & Hl')].
  { by intros [= <- <-]. }
  unfold mbind at 1, tx_mbind, tx_bind.
  destruct (invoke_chain ext q _) as [t|e] eqn:Ht; simpl.
  2:{ by intros [= <- <-]. }
  destruct (parse_decision ext t) as [[d|e]|] eqn:Hp; simpl.
  3:{ intros [= <- <-]. eauto. }
  2:{ by intros [= <- <-]. }
  unfold mbind at 1, tx_mbind, tx_bind. simpl.
  unfold mbind at 1, tx_mbind, tx_bind.
  rewrite execute_action_frame. simpl.
  destruct (acted ext d) as [[final sq]|r|e] eqn:Ha.
  2:{ by destruct (acted_no_return d r). }
  2:{ by intros [= <- <-]. }
  unfold update_history. tx_unfold. simpl.
  destruct (session_fault ext OpUpdate); simpl.
  { by intros [= <- <-]. }
  intros [= <- <-]. exists t, d, final, sq. simpl.
  destruct (created_lookup table sid) as [x ->].
  rewrite insert_created, <- (assoc_L (++)).
  repeat split; try done.
  unfold queries_run in *. rewrite !flat_map_app, Hl'. simpl.
  rewrite app_nil_r. unfold queries_of.
  destruct (_ && _); [|done]. by destruct (sql_query d).
Qed.

(** What a request leaves, by the way its transaction block ended. *)
Lemma text_to_sql_inv table data :
  let s := text_to_sql ext table data in
  (status (answer s) = 400%Z /\ stored s = table /\ statements s = [])
  \/ (exists e, answer s = failure e /\ stored s = table)
  \/ (exists sid q t,
        present (sessionId data) = Some sid /\ present (question data) = Some q
        /\ invoke_chain ext q (history_of table sid ++ [user_turn q]) = Value t
        /\ parse_decision ext t = None
        /\ answer s = decode_failure t
        /\ stored s = created table sid)
  \/ (exists sid q t d final sq,
        present (sessionId data) = Some sid /\ present (question data) = Some q
        /\ invoke_chain ext q (history_of table sid ++ [user_turn q]) = Value t
        /\ parse_decision ext t = Some (Value d)
        /\ acted ext d = Next (final, sq)
        /\ answer s = jsonify (ok_body sid d final sq) 200
        /\ stored s
           = <[sid := Some (history_of table sid
                            ++ [user_turn q; assistant_turn final])]> table
        /\ queries_run (statements s) = queries_of d).
Proof.
  unfold text_to_sql.
  destruct (present (sessionId data)) as [sid|] eqn:Hsid; [|by left].
  destruct (present (question data)) as [q|] eqn:Hq; [|by left].
  destruct (in_transaction ext sid q (Conn table [])) as [[r|r|e] c] eqn:Hrun;
    apply in_transaction_inv in Hrun; simpl.
  - destruct Hrun as (t & d & final & sq & ? & ? & ? & -> & ? & ?).
    do 3 right. by exists sid, q, t, d, final, sq.
  - destruct Hrun as (t & ? & ? & -> & ?).
    right; right; left. by exists sid, q, t.
  - right; left. by exists e.
Qed.

(** How the block ends once the chain has answered. *)
Lemma in_transaction_after_chain table sid q t :
  session_fault ext OpSelect = None -> session_fault ext OpInsert = None ->
  invoke_chain ext q (history_of table sid ++ [user_turn q]) = Value t ->
  exists c,
    in_transaction ext sid q (Conn table []) =
      (match parse_decision ext t with
       | None => Return (decode_failure t)
       | Some (Raised e) => Raise e
       | Some (Value d) =>
           match acted ext d with
           | Next (final, sq) =>
               match session_fault ext OpUpdate with
               | Some e => Raise e
               | None => Next (jsonify (ok_body sid d final sq) 200)
               end
           | Return r => Return r
           | Raise e => Raise e
           end
       end, c)
    /\ sessions c =
         match parse_decision ext t with
         | Some (Value d) =>
             match acted ext d, session_fault ext OpUpdate with
             | Next (final, sq), None =>
                 <[sid := Some (history_of table sid
                                ++ [user_turn q; assistant_turn final])]> table
             | _, _ => created table sid
             end
         | _ => created table sid
         end.
Proof.
  intros Hsel Hins Ht.
  unfold in_transaction. unfold mbind at 1, tx_mbind, tx_bind.
  destruct (load_history_cases sid table []) as [(e & l' & _ & [E|E])|(l' & -> & _)];
    [congruence|congruence|].
  unfold mbind at 1, tx_mbind, tx_bind. rewrite Ht. simpl.
  destruct (parse_decision ext t) as [[d|e]|]; simpl; [|by eauto..].
  unfold mbind at 1, tx_mbind, tx_bind. simpl.
  unfold mbind at 1, tx_mbind, tx_bind.
  rewrite execute_action_frame. simpl.
  destruct (acted ext d) as [[final sq]|r|e]; simpl; [|by eauto..].
  unfold update_history. tx_unfold. simpl.
  destruct (session_fault ext OpUpdate); simpl; [by eauto|].
  destruct (created_lookup table sid) as [x ->].
  rewrite insert_created, <- (assoc_L (++)). by eauto.
Qed.

(** The reply and the table once the chain has answered. *)
Lemma served_after_chain table data sid q t :
  present (sessionId data) = Some sid -> present (question data) = Some q ->
  session_fault ext OpSelect = None -> session_fault ext OpInsert = None ->
  invoke_chain ext q (history_of table sid ++ [user_turn q]) = Value t ->
  let s := text_to_sql ext table data in
  (answer s, stored s)
  = match parse_decision ext t with
    | None => (decode_failure t, created table sid)
    | Some (Raised e) => (failure e, table)
    | Some (Value d) =>
        match acted ext d with
        | Next (final, sq) =>
            match session_fault ext OpUpdate with
            | Some e => (failure e, table)
            | None =>
                (jsonify (ok_body sid d final sq) 200,
                 <[sid := Some (history_of table sid
                                ++ [user_turn q; assistant_turn final])]> table)
            end
        | Return r => (r, created table sid)
        | Raise e => (failure e, table)
        end
    end.
Proof.
  intros Hsid Hq Hsel Hins Ht. unfold text_to_sql. rewrite Hsid, Hq.
  destruct (in_transaction_after_chain table sid q t Hsel Hins Ht) as (c & -> & Hc).
  destruct (parse_decision ext t) as [[d|e]|]; simpl; [|by rewrite ?Hc..].
  destruct (acted ext d) as [[final sq]|r|e]; simpl; [|by rewrite ?Hc..].
  destruct (session_fault ext OpUpdate); simpl; by rewrite ?Hc.
Qed.

(** C9, as the handler has it.  When [json.loads] does not decode the
    chain's answer, fences stripped, the request ends with status 500 and
    no reply is made up.  When what it raises is [json.JSONDecodeError],
    the reply is the decode error, whose [llm_response] field is the answer
    exactly as the chain gave it, and no session's history changes.  When
    it raises anything else, the inner [except] does not catch it: the
    reply is the generic failure with the exception's message and without
    the answer, and the transaction is rolled back. *)
Theorem undecodable_answer_is_reported table data sid q t :
  present (sessionId data) = Some sid -> present (question data) = Some q ->
  session_fault ext OpSelect = None -> session_fault ext OpInsert = None ->
  invoke_chain ext q (history_of table sid ++ [user_turn q]) = Value t ->
  json_loads ext (strip_fences t) = None ->
  let s := text_to_sql ext table data in
  (json_raises ext (strip_fences t) = None ->
   answer s = jsonify [("error", VStr "Failed to decode LLM response JSON.");
                       ("llm_response", VStr t)] 500
   /\ forall sid', history_of (stored s) sid' = history_of table sid')
  /\ (forall e, json_raises ext (strip_fences t) = Some e ->
      answer s = jsonify [("error", VStr (exn_str e))] 500
      /\ stored s = table).
Proof.
  intros Hsid Hq Hsel Hins Ht Hj s. subst s.
  pose proof (served_after_chain table data sid q t Hsid Hq Hsel Hins Ht) as H.
  unfold parse_decision in H. cbv zeta in H. rewrite Hj in H. split.
  - intros Hr. rewrite Hr in H. simpl in H.
    injection H as -> ->. split; [done|]. intros sid'. apply history_of_created.
  - intros e Hr. rewrite Hr in H. simpl in H. by injection H as -> ->.
Qed.

Lemma parse_decision_loaded t v :
  json_loads ext (strip_fences t) = Some v ->
  parse_decision ext t = Some (read_decision v).
Proof. unfold parse_decision. by intros ->. Qed.

(** The fields of a decoded object whose [sql_query] is text or falsy. *)
Lemma read_decision_text j :
  text_or_falsy (dict_get j "sql_query" VNone) = true ->
  read_decision (VDict j)
  = Value (Decision (dict_get j "action" VNone) (dict_get j "response" VNone)
             (dict_get j "context_update" (VDict []))
             (match dict_get j "sql_query" VNone with
              | VStr q => VStr (rewrite_aliases q)
              | other => other
              end)
             (dict_get j "manual_link" (VStr ""))
             (dict_get j "regulation_ref" (VStr ""))).
Proof.
  unfold read_decision, text_or_falsy.
  destruct (dict_get j "sql_query" VNone) as [|b|n|f|q|l|d] eqn:E; simpl.
  - done.
  - by intros ->%negb_true_iff.
  - by intros ->%negb_true_iff.
  - by intros ->%negb_true_iff.
  - by destruct q.
  - by destruct l.
  - by destruct d.
Qed.

Lemma read_decision_cases j :
  (exists e, read_decision (VDict j) = Raised e)
  \/ text_or_falsy (dict_get j "sql_query" VNone) = true.
Proof.
  unfold read_decision, text_or_falsy.
  destruct (dict_get j "sql_query" VNone) as [|[]|n|f|q|[]|[]]; simpl;
    try (by right); try (by left; eauto).
  - destruct (n =? 0)%Z; simpl; [right; reflexivity | left; eexists; reflexivity].
  - destruct (PrimFloat.eqb f PrimFloat.zero); simpl; [right; reflexivity | left; eexists; reflexivity].
Qed.

Lemma annotate_none ml rr :
  truthy ml || truthy rr = true -> annotate ext VNone ml rr = Raised none_plus_text.
Proof.
  unfold annotate. destruct (truthy ml); simpl; [done|]. by intros ->.
Qed.

(** C10. No default stands in for a missing [response].  With
    [action = "fallback_reasoning"] and a manual link or regulation
    reference to append, the request ends as the generic failure and stores
    nothing; the error is the one raised by [None += text] whenever
    [sql_query] is text or falsy.  With [action = "ask"] the reply is
    [null], returned and stored as the assistant's turn. *)
Theorem missing_response_is_not_defaulted table data sid q t j :
  present (sessionId data) = Some sid -> present (question data) = Some q ->
  session_fault ext OpSelect = None -> session_fault ext OpInsert = None ->
  invoke_chain ext q (history_of table sid ++ [user_turn q]) = Value t ->
  json_loads ext (strip_fences t) = Some (VDict j) ->
  dict_get j "response" VNone = VNone ->
  let s := text_to_sql ext table data in
  let sql := dict_get j "sql_query" VNone in
  let link := dict_get j "manual_link" (VStr "") in
  let ref := dict_get j "regulation_ref" (VStr "") in
  (dict_get j "action" VNone = VStr "fallback_reasoning" ->
   truthy link || truthy ref = true ->
   exists e, answer s = jsonify [("error", VStr (exn_str e))] 500
             /\ stored s = table
             /\ (text_or_falsy sql = true -> e = none_plus_text))
  /\ (dict_get j "action" VNone = VStr "ask" ->
      text_or_falsy sql = true -> session_fault ext OpUpdate = None ->
      answer s = jsonify [("response", VNone); ("sql_query", VStr "N/A");
                          ("session_id", VStr sid); ("manual_link", link);
                          ("regulation_ref", ref); ("action", VStr "ask")] 200
      /\ stored s = <[sid := Some (history_of table sid
                                    ++ [user_turn q; assistant_turn VNone])]> table).
Proof.
  intros Hsid Hq Hsel Hins Ht Hj Hresp s sql link ref. subst s sql link ref.
  pose proof (served_after_chain table data sid q t Hsid Hq Hsel Hins Ht) as H.
  rewrite (parse_decision_loaded _ _ Hj) in H.
  split.
  - intros Hact Hlink.
    destruct (read_decision_cases j) as [[e He]|Hsql].
    + rewrite He in H. injection H as -> ->. exists e. repeat split; [].
      intros Hsql. rewrite read_decision_text in He by done. discriminate.
    + rewrite read_decision_text in H by done.
      unfold acted, execute_action in H. simpl in H. rewrite Hact, Hresp in H.
      simpl in H. tx_unfold. rewrite annotate_none in H by done. simpl in H.
      injection H as -> ->. by exists none_plus_text.
  - intros Hact Hsql Hupd.
    rewrite read_decision_text in H by done.
    unfold acted, execute_action in H. simpl in H. rewrite Hact, Hresp, Hupd in H.
    simpl in H. by injection H as -> ->.
Qed.

(** C1, as the handler has it.  A request that ends with status 500 either
    met an exception inside the transaction, and then the table is exactly
    what it was, or could not decode the chain's answer; that reply is
    returned from inside the transaction, which commits: every session's
    history reads as before, and the one change possible is that a session
    unknown until then now exists with an empty history. *)
Theorem failed_request_keeps_histories table data :
  let s := text_to_sql ext table data in
  status (answer s) = 500%Z ->
  (exists e, answer s = failure e /\ stored s = table)
  \/ (exists sid t,
        present (sessionId data) = Some sid
        /\ answer s = decode_failure t
        /\ stored s = created table sid
        /\ forall sid', history_of (stored s) sid' = history_of table sid').
Proof.
  intros s Hst. subst s.
  destruct (text_to_sql_inv table data)
    as [(H4 & _)|[(e & He & Hs)|[(sid & q & t & Hsid & _ & _ & _ & Ha & Hs)
                                |(sid & q & t & d & f & sq & _ & _ & _ & _ & _ & Ha & _)]]].
  - rewrite H4 in Hst. discriminate.
  - left. by exists e.
  - right. exists sid, t. repeat split; try done.
    intros sid'. rewrite Hs. apply history_of_created.
  - rewrite Ha in Hst. discriminate.
Qed.

(** What step 5 reports as [sql_query]. *)
Lemma acted_sql_query d final sq :
  acted ext d = Next (final, sq) ->
  sq = (if eq_text (action d) "query" then sql_query d else VStr "N/A")
  /\ (eq_text (action d) "query" = true -> queries_of d = [] ->
      truthy (sql_query d) = false).
Proof.
  unfold acted, execute_action, execute_query, queries_of. tx_unfold. simpl.
  destruct (eq_text (action d) "query"); simpl.
  - destruct (truthy (sql_query d)) eqn:Htr; simpl.
    + destruct (sql_query d); simpl; try done.
      destruct (fetchall ext s) as [[|r rs]|e]; simpl; try done.
      * by intros [= <- <-].
      * destruct (format_row _ _ _ _); simpl; [|done]. by intros [= <- <-].
    + by intros [= <- <-].
  - destruct (eq_text (action d) "fallback_reasoning"); simpl.
    + destruct (annotate _ _ _ _); simpl; [|done]. by intros [= <- <-].
    + destruct (eq_text (action d) "ask"); by intros [= <- <-].
Qed.

(** C2, as the handler has it.  A reply with status 200 carries the
    final reply, which is the one step 5 built for the decision decoded
    from the chain's answer, then [sql_query], the session id, and the
    decision's [manual_link], [regulation_ref] and [action] as decoded.
    [sql_query] is ["N/A"] when the action is not [query]; when it is,
    [sql_query] is the decision's rewritten [sql_query]: the query that was
    run when one was run, and the falsy value the decision carried ([null]
    when the key is missing) when none was. *)
Theorem reply_fields table data :
  let s := text_to_sql ext table data in
  status (answer s) = 200%Z ->
  exists sid q t d final,
    present (sessionId data) = Some sid /\ present (question data) = Some q
    /\ invoke_chain ext q (history_of table sid ++ [user_turn q]) = Value t
    /\ parse_decision ext t = Some (Value d)
    /\ acted ext d
       = Next (final, if eq_text (action d) "query" then sql_query d else VStr "N/A")
    /\ body (answer s)
       = [("response", final);
          ("sql_query",
           if eq_text (action d) "query" then sql_query d else VStr "N/A");
          ("session_id", VStr sid); ("manual_link", manual_link d);
          ("regulation_ref", regulation_ref d); ("action", action d)]
    /\ queries_run (statements s) = queries_of d
    /\ (forall sql, queries_run (statements s) = [sql] ->
        eq_text (action d) "query" = true /\ sql_query d = VStr sql)
    /\ (eq_text (action d) "query" = true -> queries_run (statements s) = [] ->
        truthy (sql_query d) = false).
Proof.
  intros s Hst. subst s.
  destruct (text_to_sql_inv table data)
    as [(H4 & _)|[(e & He & Hs)|[(sid & q & t & _ & _ & _ & _ & Ha & _)
                                |(sid & q & t & d & f & sq & Hsid & Hq & Ht & Hp & Hact & Ha & _ & Hqs)]]].
  - rewrite H4 in Hst. discriminate.
  - rewrite He in Hst. discriminate.
  - rewrite Ha in Hst. discriminate.
  - destruct (acted_sql_query d f sq Hact) as [Hsq Hnone]. subst sq.
    exists sid, q, t, d, f. rewrite Ha, Hqs. repeat split; try done.
    + revert H. unfold queries_of.
      destruct (eq_text (action d) "query"); [done|]. by rewrite andb_false_l.
    + revert H. unfold queries_of.
      destruct (eq_text (action d) "query" && truthy (sql_query d)); [|done].
      destruct (sql_query d); try done. by intros [= ->].
Qed.

Lemma history_of_insert table sid h sid' :
  history_of (<[sid := Some h]> table) sid'
  = if String.eqb sid sid' then h else history_of table sid'.
Proof.
  unfold history_of. destruct (String.eqb_spec sid sid') as [->|Hne].
  - by rewrite lookup_insert_eq.
  - by rewrite lookup_insert_ne.
Qed.

(** One request: the history of a session grows by the two turns of the
    request when it completed on that session, and is as before otherwise. *)
Lemma history_after_request table data sid :
  let s := text_to_sql ext table data in
  history_of (stored s) sid
  = history_of table sid
    ++ (if completed sid (data, answer s) then turns_of (data, answer s) else []).
Proof.
  intros s. subst s. unfold completed, turns_of. simpl.
  destruct (text_to_sql_inv table data)
    as [(H4 & -> & _)|[(e & -> & ->)|[(sid0 & q & t & _ & _ & _ & _ & -> & ->)
                                |(sid0 & q & t & d & f & sq & Hsid & Hq & _ & _ & _ & -> & -> & _)]]].
  - rewrite H4. simpl. by rewrite app_nil_r.
  - simpl. by rewrite app_nil_r.
  - simpl. by rewrite app_nil_r, history_of_created.
  - simpl. rewrite Hsid, Hq, history_of_insert.
    destruct (String.eqb_spec sid0 sid) as [->|Hne]; [done|]. by rewrite app_nil_r.
Qed.

Lemma completed_turns table data sid :
  let s := text_to_sql ext table data in
  completed sid (data, answer s) = true ->
  exists q final, turns_of (data, answer s) = [user_turn q; assistant_turn final].
Proof.
  intros s. subst s. unfold completed, turns_of. simpl.
  destruct (text_to_sql_inv table data)
    as [(H4 & _)|[(e & -> & _)|[(sid0 & q & t & _ & _ & _ & _ & -> & _)
                                |(sid0 & q & t & d & f & sq & _ & Hq & _ & _ & _ & -> & _)]]];
    try done.
  - by rewrite H4.
  - rewrite Hq. eauto.
Qed.
End Handler.

(** ** Histories over many requests *)

Section Histories.

Lemma serve_history sid requests : forall table,
  let '(table', log) := serve table requests in
  let finished := List.filter (completed sid) log in
  history_of table' sid = history_of table sid ++ flat_map turns_of finished
  /\ Forall exchange finished.
Proof.
  induction requests as [|[ext data] rest IH]; intros table; simpl.
  { by rewrite app_nil_r. }
  specialize (IH (stored (text_to_sql ext table data))).
  destruct (serve _ rest) as [table' log]. simpl in *.
  destruct IH as [IH1 IH2]. rewrite IH1, history_after_request.
  pose proof (completed_turns ext table data sid) as Hturns. simpl in Hturns.
  destruct (completed sid _); simpl.
  - rewrite <- (assoc_L (++)). split; [done|]. constructor; [by apply Hturns|done].
  - by rewrite app_nil_r.
Qed.

Lemma exchanges_shape (finished : list (request * reply)) :
  Forall exchange finished ->
  length (flat_map turns_of finished) = 2 * length finished
  /\ role <$> flat_map turns_of finished
     = mjoin (replicate (length finished) ["user"; "assistant"]).
Proof.
  induction 1 as [|entry rest (q & final & Hentry) _ [IHl IHr]]; [done|].
  cbn [flat_map length replicate]. rewrite Hentry, fmap_app, IHr, length_app, IHl.
  split; [simpl; lia|done].
Qed.

(** C8. Whatever requests are served, in whatever order and for whatever
    sessions, the history stored for a session is the one it had, followed
    by two turns for each request that completed on it, in the order the
    requests came: a turn with role [user] whose content is the question of
    the request, then a turn with role [assistant] whose content is the
    [response] of the reply returned.  A session that starts unknown or
    empty therefore holds exactly 2N turns after N completed requests. *)
Theorem history_after_requests sid table requests :
  let '(table', log) := serve table requests in
  let finished := List.filter (completed sid) log in
  let added :=
    flat_map (fun entry : request * reply =>
                match present (question entry.1) with
                | Some q =>
                    [{| role := "user"; content := VStr q |};
                     {| role := "assistant";
                        content := dict_get (body entry.2) "response" VNone |}]
                | None => []
                end) finished in
  history_of table' sid = history_of table sid ++ added
  /\ length added = 2 * length finished
  /\ role <$> added = mjoin (replicate (length finished) ["user"; "assistant"])
  /\ (history_of table sid = [] ->
      length (history_of table' sid) = 2 * length finished).
Proof.
  pose proof (serve_history sid requests table) as H.
  destruct (serve table requests) as [table' log]. simpl in *.
  destruct H as [H1 H2]. destruct (exchanges_shape _ H2) as [Hl Hr].
  repeat split; try done.
  intros Hempty. by rewrite H1, Hempty.
Qed.

End Histories.

(** ** The action and the reply *)

Section Reply.
Context (ext : externals).


Lemma replace_nonempty s old new :
  s <> "" -> new <> "" -> Text.replace s old new <> "".
Proof.
  intros Hs Hnew. destruct s as [|c s]; [done|].
  destruct new as [|n new]; [done|].
  unfold Text.replace. destruct old as [|o old]; [done|].
  cbn [Text.replace_from]. by destruct (Text.startswith _ _).
Qed.

Lemma rewrite_aliases_nonempty q : q <> "" -> rewrite_aliases q <> "".
Proof.
  intros Hq. unfold rewrite_aliases. by repeat apply replace_nonempty.
Qed.

Lemma truthy_text q : q <> "" -> truthy (VStr q) = true.
Proof. by destruct q. Qed.

(** C6. A decision whose action is [query].  With query text: the text is
    rewritten, the rewritten text is the one statement run, and the reply is
    the first row formatted (or the error formatting raises) when there is
    a row, and otherwise the decision's response when that is truthy and
    the no-match message when it is not, never the empty text.  Without
    query text: nothing is run and the reply is the no-query message. *)
Theorem query_action (j : list (string * value)) (c : conn) :
  dict_get j "action" VNone = VStr "query" ->
  let response := dict_get j "response" VNone in
  let link := dict_get j "manual_link" (VStr "") in
  let ref := dict_get j "regulation_ref" (VStr "") in
  (forall q0, dict_get j "sql_query" VNone = VStr q0 -> q0 <> "" ->
     let q := rewrite_aliases q0 in
     let c' := Conn (sessions c) (sent c ++ [RunQuery q]) in
     exists d, read_decision (VDict j) = Value d
       /\ (forall first rest, fetchall ext q = Value (first :: rest) ->
             execute_action ext d c
             = (match format_row ext first link ref with
                | Value final => Next (final, VStr q)
                | Raised e => Raise e
                end, c'))
       /\ (fetchall ext q = Value [] ->
             exists final,
               execute_action ext d c = (Next (final, VStr q), c')
               /\ final = (if truthy response then response
                           else VStr no_match_message)
               /\ final <> VStr ""))
  /\ (truthy (dict_get j "sql_query" VNone) = false ->
      exists d, read_decision (VDict j) = Value d
        /\ execute_action ext d c = (Next (VStr no_query_message, sql_query d), c)).
Proof.
  intros Hact response link ref. split.
  - intros q0 Hq0 Hne q c'. eexists. split.
    { apply read_decision_text. by rewrite Hq0. }
    rewrite Hq0, Hact.
    assert (Htr : truthy (VStr q) = true)
      by by apply truthy_text, rewrite_aliases_nonempty.
    subst c'. fold q. clearbody q.
    split.
    + intros first rest Hrows. unfold execute_action, execute_query.
      cbn [action sql_query eq_text String.eqb Ascii.eqb Bool.eqb].
      rewrite Htr. tx_unfold. cbn. rewrite Hrows. tx_unfold. cbn.
      subst link ref. by destruct (format_row _ _ _ _).
    + intros Hrows. eexists. split; [|split; [reflexivity|]].
      * unfold execute_action, execute_query.
        cbn [action sql_query eq_text String.eqb Ascii.eqb Bool.eqb].
        rewrite Htr. tx_unfold. cbn. rewrite Hrows. tx_unfold. reflexivity.
      * destruct (truthy response) eqn:E; [|done]. by intros ->.
  - intros Hfalsy. eexists. split.
    { apply read_decision_text. unfold text_or_falsy. by rewrite Hfalsy, orb_true_r. }
    unfold execute_action.
    cbn [action sql_query eq_text String.eqb Ascii.eqb Bool.eqb]. rewrite Hact.
    cbn [eq_text String.eqb Ascii.eqb Bool.eqb].
    assert (Hkeep : truthy (match dict_get j "sql_query" VNone with
                            | VStr q => VStr (rewrite_aliases q)
                            | other => other
                            end) = false).
    { destruct (dict_get j "sql_query" VNone) as [| | | |q| |]; try done.
      by destruct q. }
    rewrite Hkeep. tx_unfold. by destruct c.
Qed.

(** C3, as the handler has it.  A list is kept as it is; text whose literal
    is a list becomes that list; text whose literal is anything else, or
    that [ast.literal_eval] rejects with [ValueError] or [SyntaxError],
    becomes the one-element list of the text; any other value gives the
    empty list.  So the result is a list whenever there is one, and its
    elements are texts whenever those of the list or of the literal are;
    the only error is one [ast.literal_eval] raises otherwise. *)
Theorem solutions_normalized :
  (forall l, normalize_solutions ext (VList l) = Value l)
  /\ (forall s l, literal_eval ext s = LitValue (VList l) ->
        normalize_solutions ext (VStr s) = Value l)
  /\ (forall s,
        literal_eval ext s = LitInvalid \/ literal_eval ext s = LitOther
        \/ (exists w, literal_eval ext s = LitValue w /\ forall l, w <> VList l) ->
        normalize_solutions ext (VStr s) = Value [VStr s])
  /\ (forall v, is_text v = false -> (forall l, v <> VList l) ->
        normalize_solutions ext v = Value [])
  /\ (forall v l, normalize_solutions ext v = Value l ->
        (forall l0, v = VList l0 -> forallb is_text l0 = true) ->
        (forall s l0, v = VStr s -> literal_eval ext s = LitValue (VList l0) ->
           forallb is_text l0 = true) ->
        forallb is_text l = true)
  /\ (forall v e, normalize_solutions ext v = Raised e ->
        exists s, v = VStr s /\ literal_eval ext s = LitRaises e).
Proof.
  repeat split.
  - intros s l H. simpl. by rewrite H.
  - intros s [H|[H|(w & H & Hw)]]; simpl; rewrite H; try done.
    destruct w; try done. by destruct (Hw l).
  - intros v Htext Hlist. destruct v; try done. by destruct (Hlist l).
  - intros v l Hn Hnative Hliteral.
    destruct v as [| | | |s|l0|]; simpl in Hn; try by injection Hn as <-.
    + destruct (literal_eval ext s) as [w| | |e] eqn:E;
        [|by injection Hn as <-..|done].
      destruct w as [| | | | |l0|]; try by injection Hn as <-.
      injection Hn as <-. by eapply Hliteral.
    + injection Hn as <-. by apply Hnative.
  - intros v e Hn. destruct v; try done. simpl in Hn.
    destruct (literal_eval ext s) as [w| | |e'] eqn:E; try done.
    + by destruct w.
    + injection Hn as ->. eauto.
Qed.

End Reply.

(** ** The alias fix applied twice *)

Section Rewrite.
Import Text.

Lemma contains_cons c s p :
  contains (String c s) p = startswith (String c s) p || contains s p.
Proof. reflexivity. Qed.

Lemma startswith_split s p :
  startswith s p = true -> s = p +:+ slice_from (String.length p) s.
Proof.
  revert s. induction p as [|a p IH]; intros [|c s]; simpl; try done.
  intros [->%Ascii.eqb_eq Hs]%andb_true_iff. rewrite ?str_app_cons. f_equal. auto.
Qed.

Lemma startswith_weaken a b p : startswith a p = true -> startswith (a +:+ b) p = true.
Proof.
  revert a. induction p as [|x p IH]; intros [|c a]; simpl; try done.
  { by destruct b. }
  intros [-> Ha]%andb_true_iff. rewrite ?str_app_cons. simpl. auto.
Qed.

Lemma startswith_before a x b p :
  has_char p x = false -> startswith (a +:+ String x b) p = true ->
  startswith a p = true.
Proof.
  revert a. induction p as [|y p IH]; intros a; [by destruct a|].
  simpl. intros [Hy Hp]%orb_false_iff. destruct a as [|c a].
  - rewrite ?str_app_nil_l. simpl. by rewrite Hy.
  - rewrite ?str_app_cons. simpl. intros [-> Ha]%andb_true_iff. simpl. eauto.
Qed.

Lemma replace_from_skip old new k s :
  replace_from old new k s = replace_from old new 0 (slice_from k s).
Proof.
  revert k. induction s as [|c s IH]; intros [|k]; try done. simpl. apply IH.
Qed.

Section OneRule.
Context (old new : string).

Lemma scan_match s :
  old <> "" -> startswith s old = true ->
  scan old new s = new +:+ scan old new (slice_from (String.length old) s).
Proof.
  intros Hold Hs. unfold scan. destruct s as [|c s].
  { destruct old; done. }
  cbn [replace_from]. rewrite Hs, replace_from_skip. do 2 f_equal.
  destruct old as [|o old']; [done|]. simpl. by rewrite Nat.sub_0_r.
Qed.

Lemma scan_copy c s :
  startswith (String c s) old = false -> scan old new (String c s) = String c (scan old new s).
Proof. intros Hs. unfold scan. cbn [replace_from]. by rewrite Hs. Qed.

(** The text before the first inserted character is the input's. *)
Lemma scan_prefix pre x more p :
  old <> "" -> startswith old pre = true -> new = pre +:+ String x more ->
  forall s, has_char p x = false ->
  startswith (scan old new s) p = true -> startswith s p = true.
Proof.
  intros Hold Hpre Hnew s. revert p. induction s as [|c s IH]; intros p Hp; [done|].
  destruct (startswith (String c s) old) eqn:Hs.
  - rewrite scan_match, Hnew, str_app_assoc, str_app_cons by done.
    intros H%startswith_before; [|done].
    rewrite (startswith_split _ _ Hs), (startswith_split _ _ Hpre), str_app_assoc.
    by apply startswith_weaken.
  - rewrite scan_copy by done. destruct p as [|y p]; [done|].
    simpl in *. apply orb_false_iff in Hp as [_ Hp].
    intros [-> H]%andb_true_iff. simpl. eauto.
Qed.

(** Without an occurrence nothing changes. *)
Lemma replace_absent s : contains s old = false -> replace s old new = s.
Proof.
  unfold replace. destruct old as [|o old'] eqn:E.
  { by destruct s. }
  rewrite <- E. clear E. induction s as [|c s IH]; [done|].
  rewrite contains_cons. intros [Hs Hc]%orb_false_iff.
  cbn [replace_from]. rewrite Hs. f_equal. auto.
Qed.

End OneRule.

Lemma contains_suffix a b p : contains (a +:+ b) p = false -> contains b p = false.
Proof.
  induction a as [|c a IH]; [done|].
  rewrite str_app_cons, contains_cons. intros [_ H]%orb_false_iff. auto.
Qed.

Lemma slice_from_length k s :
  String.length (slice_from k s) <= String.length s - k.
Proof.
  revert s. induction k as [|k IH]; intros [|c s]; simpl; try lia. apply IH.
Qed.

(** Where the scan copies a character, an occurrence in the output starts
    at that character in the input too, or lies in the rest of the output. *)
Lemma scan_copy_contains old new pre x more p c s :
  old <> "" -> startswith old pre = true -> new = pre +:+ String x more ->
  has_char p x = false ->
  startswith (String c s) old = false ->
  contains (scan old new (String c s)) p = true ->
  startswith (String c s) p = true \/ contains (scan old new s) p = true.
Proof.
  intros Hold Hpre Hnew Hp Hm.
  pose proof (scan_prefix old new pre x more p Hold Hpre Hnew (String c s) Hp) as H.
  rewrite scan_copy in * by done. rewrite contains_cons.
  intros [?|?]%orb_true_iff; auto.
Qed.

Lemma rule1_clears n : forall s,
  String.length s <= n ->
  contains s " bf.model bf.model " = false ->
  contains (scan " bf.model " " bf.model_name " s) " bf.model " = false.
Proof.
  induction n as [|n IH]; intros [|c s] Hlen Hs; try done.
  { simpl in Hlen. lia. }
  destruct (startswith (String c s) " bf.model ") eqn:Hm.
  - rewrite scan_match by done.
    pose proof (startswith_split _ _ Hm) as Hsplit.
    set (rest := slice_from (String.length " bf.model ") (String c s)) in *.
    assert (Hrest : String.length rest <= n).
    { pose proof (slice_from_length (String.length " bf.model ") (String c s)) as Hl.
      fold rest in Hl. simpl in *. lia. }
    rewrite Hsplit in Hs.
    pose proof (IH rest Hrest (contains_suffix _ _ _ Hs)) as Hclean.
    pose proof (scan_prefix " bf.model " " bf.model_name " " bf.model" "_"%char "name "
                  "bf.model " ltac:(done) eq_refl eq_refl rest eq_refl) as Hpre.
    generalize dependent (scan " bf.model " " bf.model_name " rest). intros R Hclean Hpre.
    clear Hsplit Hm. clearbody rest.
    cbv [String.append] in Hs |- *. cbn in Hs |- *.
    rewrite Hclean, orb_false_r.
    destruct (startswith R "bf.model ") eqn:E; [|done].
    by rewrite Hpre in Hs.
  - destruct (contains (scan _ _ (String c s)) " bf.model ") eqn:E; [|done].
    apply (scan_copy_contains _ _ " bf.model" "_"%char "name ") in E as [E|E]; try done.
    + congruence.
    + rewrite contains_cons in Hs. apply orb_false_iff in Hs as [_ Hs].
      rewrite IH in E; [done| |done]. simpl in Hlen. lia.
Qed.

(** A rule none of whose replacement's endings begins its own pattern
    leaves no occurrence of the pattern. *)
Lemma rule2_clears n : forall s,
  String.length s <= n ->
  contains (scan " bf.model," " bf.model_name," s) " bf.model," = false.
Proof.
  induction n as [|n IH]; intros [|c s] Hlen; try done.
  { simpl in Hlen. lia. }
  destruct (startswith (String c s) " bf.model,") eqn:Hm.
  - rewrite scan_match by done.
    set (rest := slice_from (String.length " bf.model,") (String c s)) in *.
    assert (Hrest : String.length rest <= n).
    { pose proof (slice_from_length (String.length " bf.model,") (String c s)) as Hl.
      fold rest in Hl. simpl in *. lia. }
    pose proof (IH rest Hrest) as Hclean.
    generalize dependent (scan " bf.model," " bf.model_name," rest). intros R Hclean.
    cbv [String.append]. cbn. done.
  - destruct (contains (scan _ _ (String c s)) " bf.model,") eqn:E; [|done].
    apply (scan_copy_contains _ _ " bf.model" "_"%char "name,") in E as [E|E]; try done.
    + congruence.
    + rewrite IH in E; [done|]. simpl in Hlen. lia.
Qed.

Lemma rule3_clears n : forall s,
  String.length s <= n ->
  contains (scan ".model =" ".model_name =" s) ".model =" = false.
Proof.
  induction n as [|n IH]; intros [|c s] Hlen; try done.
  { simpl in Hlen. lia. }
  destruct (startswith (String c s) ".model =") eqn:Hm.
  - rewrite scan_match by done.
    set (rest := slice_from (String.length ".model =") (String c s)) in *.
    assert (Hrest : String.length rest <= n).
    { pose proof (slice_from_length (String.length ".model =") (String c s)) as Hl.
      fold rest in Hl. simpl in *. lia. }
    pose proof (IH rest Hrest) as Hclean.
    generalize dependent (scan ".model =" ".model_name =" rest). intros R Hclean.
    cbv [String.append]. cbn. done.
  - destruct (contains (scan _ _ (String c s)) ".model =") eqn:E; [|done].
    apply (scan_copy_contains _ _ ".model" "_"%char "name =") in E as [E|E]; try done.
    + congruence.
    + rewrite IH in E; [done|]. simpl in Hlen. lia.
Qed.

(** A rule whose replacement brings no occurrence of [p] keeps a text
    without [p] without it. *)
Lemma scan_keeps_clear old new pre x more p :
  old <> "" -> startswith old pre = true -> new = pre +:+ String x more ->
  has_char p x = false ->
  (forall R, contains R p = false -> contains (new +:+ R) p = false) ->
  forall n s, String.length s <= n ->
  contains s p = false -> contains (scan old new s) p = false.
Proof.
  intros Hold Hpre Hnew Hp Hblock.
  induction n as [|n IH]; intros [|c s] Hlen Hs; try done.
  { simpl in Hlen. lia. }
  destruct (startswith (String c s) old) eqn:Hm.
  - rewrite scan_match by done. apply Hblock, IH.
    + pose proof (slice_from_length (String.length old) (String c s)) as Hl.
      destruct old; [done|]. simpl in *. lia.
    + rewrite (startswith_split _ _ Hm) in Hs. by apply contains_suffix in Hs.
  - destruct (contains (scan _ _ (String c s)) p) eqn:E; [|done].
    apply (scan_copy_contains _ _ pre x more) in E as [E|E]; try done.
    + rewrite contains_cons, E in Hs. done.
    + rewrite contains_cons in Hs. apply orb_false_iff in Hs as [_ Hs].
      rewrite IH in E; [done| |done]. simpl in Hlen. lia.
Qed.

Lemma rule2_keeps_rule1 s :
  contains s " bf.model " = false ->
  contains (scan " bf.model," " bf.model_name," s) " bf.model " = false.
Proof.
  apply (scan_keeps_clear " bf.model," " bf.model_name," " bf.model" "_"%char "name,"
           " bf.model " ltac:(done) eq_refl eq_refl eq_refl)
    with (n := String.length s); [|done].
  intros R HR. cbv [String.append]. cbn. done.
Qed.

Lemma rule3_keeps_rule1 s :
  contains s " bf.model " = false ->
  contains (scan ".model =" ".model_name =" s) " bf.model " = false.
Proof.
  apply (scan_keeps_clear ".model =" ".model_name =" ".model" "_"%char "name ="
           " bf.model " ltac:(done) eq_refl eq_refl eq_refl)
    with (n := String.length s); [|done].
  intros R HR. cbv [String.append]. cbn. done.
Qed.

Lemma rule3_keeps_rule2 s :
  contains s " bf.model," = false ->
  contains (scan ".model =" ".model_name =" s) " bf.model," = false.
Proof.
  apply (scan_keeps_clear ".model =" ".model_name =" ".model" "_"%char "name ="
           " bf.model," ltac:(done) eq_refl eq_refl eq_refl)
    with (n := String.length s); [|done].
  intros R HR. cbv [String.append]. cbn. done.
Qed.

(** The rewritten query holds none of the three patterns. *)
Lemma rewrite_aliases_clear q :
  contains q " bf.model bf.model " = false ->
  contains (rewrite_aliases q) " bf.model " = false
  /\ contains (rewrite_aliases q) " bf.model," = false
  /\ contains (rewrite_aliases q) ".model =" = false.
Proof.
  intros Hq. unfold rewrite_aliases.
  change (replace (replace (replace q " bf.model " " bf.model_name ")
                     " bf.model," " bf.model_name,") ".model =" ".model_name =")
    with (scan ".model =" ".model_name ="
            (scan " bf.model," " bf.model_name,"
               (scan " bf.model " " bf.model_name " q))).
  pose proof (rule1_clears _ q (le_n _) Hq) as H1.
  set (q1 := scan " bf.model " " bf.model_name " q) in *.
  pose proof (rule2_clears _ q1 (le_n _)) as H2.
  pose proof (rule2_keeps_rule1 q1 H1) as H21.
  set (q2 := scan " bf.model," " bf.model_name," q1) in *.
  split; [by apply rule3_keeps_rule1|].
  split; [by apply rule3_keeps_rule2|].
  apply (rule3_clears _ q2 (le_n _)).
Qed.

(** C5, as the rewriting has it.  [str.replace] passes over an occurrence
    that overlaps one it has just replaced, and two occurrences of
    [" bf.model "] overlap exactly when they share their blank, as in
    [" bf.model bf.model "].  On a query that does not contain that text,
    rewriting twice is rewriting once. *)
Theorem rewrite_aliases_idempotent q :
  contains q " bf.model bf.model " = false ->
  rewrite_aliases (rewrite_aliases q) = rewrite_aliases q.
Proof.
  intros Hq. destruct (rewrite_aliases_clear q Hq) as (H1 & H2 & H3).
  set (r := rewrite_aliases q) in *. clearbody r. unfold rewrite_aliases.
  by rewrite (replace_absent _ _ r H1), (replace_absent _ _ r H2),
    (replace_absent _ _ r H3).
Qed.

(** C5 fails as stated: the first pass renames only the first of two
    aliases that share a blank, the second pass renames the other. *)
Lemma rewrite_aliases_twice_differs :
  rewrite_aliases " bf.model bf.model " = " bf.model_name bf.model "
  /\ rewrite_aliases (rewrite_aliases " bf.model bf.model ")
     = " bf.model_name bf.model_name "
  /\ rewrite_aliases (rewrite_aliases " bf.model bf.model ")
     <> rewrite_aliases " bf.model bf.model ".
Proof. repeat split. discriminate. Qed.

(** C5 (amended) on the query of the prompt's example: one pass renames
    the alias, a second changes nothing. *)
Lemma rewrite_aliases_idempotent_witness :
  rewrite_aliases (rewrite_aliases Demo.prompt_query)
  = rewrite_aliases Demo.prompt_query.
Proof. exact (rewrite_aliases_idempotent Demo.prompt_query eq_refl). Defined.
End Rewrite.

(** ** The theorems on recorded answers *)

Section Examples.
Import Demo.

(** C1 fails as stated: the answer "not json" cannot be decoded, the request
    ends with status 500, and the session "s1", unknown before, is stored
    with an empty history afterwards. *)
Lemma decode_failure_keeps_new_session :
  let s := text_to_sql ext ∅ (ask "s1" "Say anything") in
  answer s = decode_failure "not json"
  /\ status (answer s) = 500%Z
  /\ (∅ : sessions_table) !! "s1" = None
  /\ stored s !! "s1" = Some (Some [])
  /\ stored s <> ∅.
Proof.
  repeat split; try reflexivity.
  intros H. apply (f_equal (fun t : sessions_table => t !! "s1")) in H.
  vm_compute in H. discriminate.
Qed.

(** C1 (amended) on a request that fails because the chain raises, and on
    one whose answer cannot be decoded. *)
Lemma failed_request_keeps_histories_witness :
  (let s := text_to_sql ext ∅ (ask "s1" "Is anyone there?") in
   (exists e, answer s = failure e /\ stored s = ∅)
   \/ (exists sid t,
         present (sessionId (ask "s1" "Is anyone there?")) = Some sid
         /\ answer s = decode_failure t
         /\ stored s = created ∅ sid
         /\ forall sid', history_of (stored s) sid' = history_of ∅ sid'))
  /\ (let s := text_to_sql ext ∅ (ask "s1" "Say anything") in
      (exists e, answer s = failure e /\ stored s = ∅)
      \/ (exists sid t,
            present (sessionId (ask "s1" "Say anything")) = Some sid
            /\ answer s = decode_failure t
            /\ stored s = created ∅ sid
            /\ forall sid', history_of (stored s) sid' = history_of ∅ sid')).
Proof.
  split.
  - exact (failed_request_keeps_histories ext ∅ (ask "s1" "Is anyone there?") eq_refl).
  - exact (failed_request_keeps_histories ext ∅ (ask "s1" "Say anything") eq_refl).
Defined.

(** C2 fails as stated: the decision [{"action": "query"}] carries no
    query text, no query is run, the request completes, and the reply's
    [sql_query] is [null], not ["N/A"]. *)
Lemma query_without_text_reports_null :
  let s := text_to_sql ext ∅ (ask "s1" "Look it up") in
  status (answer s) = 200%Z
  /\ dict_get (body (answer s)) "action" VNone = VStr "query"
  /\ queries_run (statements s) = []
  /\ dict_get (body (answer s)) "response" VNone = VStr no_query_message
  /\ dict_get (body (answer s)) "sql_query" (VStr "N/A") = VNone.
Proof. repeat split. Qed.


(** C2 (amended) on the fault-code lookup: the rewritten query is run and
    reported. *)
Lemma reply_fields_witness :
  let s := text_to_sql ext ∅ (ask "s1" "Ideal Logic shows F1") in
  exists sid q t d final,
    present (sessionId (ask "s1" "Ideal Logic shows F1")) = Some sid
    /\ present (question (ask "s1" "Ideal Logic shows F1")) = Some q
    /\ invoke_chain ext q (history_of ∅ sid ++ [user_turn q]) = Value t
    /\ parse_decision ext t = Some (Value d)
    /\ acted ext d
       = Next (final, if eq_text (action d) "query" then sql_query d else VStr "N/A")
    /\ body (answer s)
       = [("response", final);
          ("sql_query",
           if eq_text (action d) "query" then sql_query d else VStr "N/A");
          ("session_id", VStr sid); ("manual_link", manual_link d);
          ("regulation_ref", regulation_ref d); ("action", action d)]
    /\ queries_run (statements s) = queries_of d
    /\ (forall sql, queries_run (statements s) = [sql] ->
        eq_text (action d) "query" = true /\ sql_query d = VStr sql)
    /\ (eq_text (action d) "query" = true -> queries_run (statements s) = [] ->
        truthy (sql_query d) = false).
Proof.
  exact (reply_fields ext ∅ (ask "s1" "Ideal Logic shows F1") eq_refl).
Defined.

(** C3 fails as stated: the text ["[1, 2]"] is a list literal, and the list
    it becomes holds integers; a list column with a NULL element passes
    through with it. *)
Lemma solutions_may_hold_other_values :
  normalize_solutions ext (VStr "[1, 2]") = Value [VInt 1; VInt 2]
  /\ forallb is_text [VInt 1; VInt 2] = false
  /\ normalize_solutions ext (VList [VStr "Check pump"; VNone])
     = Value [VStr "Check pump"; VNone]
  /\ forallb is_text [VStr "Check pump"; VNone] = false.
Proof. repeat split. Qed.

(** C3 (amended) on the specification's three examples, a literal that is
    not a list, and NULL. *)
Lemma solutions_normalized_witness :
  normalize_solutions ext (VList [VStr "Check pump"; VStr "Check pressure"])
  = Value [VStr "Check pump"; VStr "Check pressure"]
  /\ normalize_solutions ext (VStr "['check pump','check pressure']")
     = Value [VStr "check pump"; VStr "check pressure"]
  /\ normalize_solutions ext (VStr "not-a-list(") = Value [VStr "not-a-list("]
  /\ normalize_solutions ext (VStr "'reset the boiler'")
     = Value [VStr "'reset the boiler'"]
  /\ normalize_solutions ext VNone = Value []
  /\ forallb is_text [VStr "check pump"; VStr "check pressure"] = true.
Proof.
  destruct (solutions_normalized ext) as (Hlist & Hliteral & Hwrap & Hother & Htext & _).
  split; [apply Hlist|].
  split; [by apply Hliteral|].
  split; [apply Hwrap; by left|].
  split; [apply Hwrap; right; right; by eexists|].
  split; [by apply Hother|].
  apply (Htext (VStr "['check pump','check pressure']")); [by apply Hliteral|done|].
  by intros s l0 [= <-] [= <-].
Defined.

(** C6 on the three branches of a [query] decision: a row, no row, no
    text. *)
Lemma query_action_witness :
  let c := Conn ∅ [] in
  (let q := rewrite_aliases "SELECT bf.description, bf.solutions FROM boiler_fault_codes bf WHERE bf.model = 'Logic'" in
   exists d, read_decision (object_value query_members) = Value d
     /\ execute_action ext d c
        = (Next (VStr ("Pump fault" +:+ LF +:+ LF +:+ "Recommended steps:" +:+ LF
                       +:+ "- Check pump" +:+ LF +:+ "- Check pressure"
                       +:+ LF +:+ LF +:+ manual_mark +:+ "http://x/manual.pdf"),
                 VStr q),
           Conn ∅ [RunQuery q]))
  /\ (let q := "SELECT bf.description FROM boiler_fault_codes bf WHERE bf.fault_code = 'F9'" in
      exists d, read_decision (object_value miss_members) = Value d
        /\ execute_action ext d c
           = (Next (VStr no_match_message, VStr q), Conn ∅ [RunQuery q]))
  /\ (exists d, read_decision (object_value query_without_text) = Value d
        /\ execute_action ext d c = (Next (VStr no_query_message, sql_query d), c)).
Proof.
  intros c. split; [|split].
  - destruct (query_action ext (map (fun kv => (kv.1, VStr kv.2)) query_members) c eq_refl)
      as [Hrun _].
    destruct (Hrun _ eq_refl ltac:(discriminate)) as (d & Hd & Hrow & _).
    exists d. split; [exact Hd|]. exact (Hrow pump_row [] eq_refl).
  - destruct (query_action ext (map (fun kv => (kv.1, VStr kv.2)) miss_members) c eq_refl)
      as [Hrun _].
    destruct (Hrun _ eq_refl ltac:(discriminate)) as (d & Hd & _ & Hnone).
    destruct (Hnone eq_refl) as (final & Hexec & -> & _).
    exists d. split; [exact Hd|]. exact Hexec.
  - destruct (query_action ext (map (fun kv => (kv.1, VStr kv.2)) query_without_text) c eq_refl)
      as [_ Hnone].
    exact (Hnone eq_refl).
Defined.

(** C8 on four requests: two complete on "s1", one fails to decode on it,
    one completes on "s2". *)
Lemma history_after_requests_witness :
  let requests :=
    [(ext, ask "s1" "What should I check first?"); (ext, ask "s1" "Say anything");
     (ext, ask "s2" "Ideal Logic shows F1"); (ext, ask "s1" "Ideal Logic shows F9")] in
  let result := serve ∅ requests in
  let finished := List.filter (completed "s1") result.2 in
  history_of result.1 "s1"
  = [{| role := "user"; content := VStr "What should I check first?" |};
     {| role := "assistant"; content := VStr "What type of heating system?" |};
     {| role := "user"; content := VStr "Ideal Logic shows F9" |};
     {| role := "assistant"; content := VStr no_match_message |}]
  /\ length finished = 2
  /\ role <$> history_of result.1 "s1" = ["user"; "assistant"; "user"; "assistant"]
  /\ length (history_of result.1 "s1") = 4.
Proof.
  intros requests result finished.
  pose proof (history_after_requests "s1" ∅ requests) as H.
  fold result in H. destruct result as [table' log] eqn:E.
  destruct H as (Hhist & _ & Hroles & Hlen).
  assert (Hlog : log = (serve ∅ requests).2).
  { fold result. by rewrite E. }
  assert (Hn : length finished = 2).
  { subst finished. cbn [snd]. rewrite Hlog. reflexivity. }
  cbn [fst snd] in *. fold finished in Hhist, Hroles, Hlen.
  change (history_of ∅ "s1") with (@nil turn) in Hhist. rewrite app_nil_l in Hhist.
  split; [rewrite Hhist; subst finished; rewrite Hlog; reflexivity|].
  split; [exact Hn|].
  split; [rewrite Hhist, Hroles, Hn; reflexivity|].
  rewrite (Hlen eq_refl), Hn. reflexivity.
Defined.

(** C9 fails as stated: a thousand opening brackets are no JSON, yet
    [json.loads] raises [RecursionError] on them, not
    [json.JSONDecodeError]; the request ends with the generic failure,
    whose payload holds the exception's message and not the answer. *)
Lemma deep_answer_is_not_reported :
  let s := text_to_sql Trouble.ext ∅ (ask "s1" "Nest it") in
  invoke_chain Trouble.ext "Nest it" [user_turn "Nest it"] = Value Trouble.deep_text
  /\ strip_fences Trouble.deep_text = Trouble.deep_text
  /\ String.length Trouble.deep_text = 1000
  /\ json_loads Trouble.ext Trouble.deep_text = None
  /\ answer s
     = jsonify [("error", VStr "maximum recursion depth exceeded while decoding a JSON array from a unicode string")] 500
  /\ dict_get (body (answer s)) "llm_response" VNone = VNone
  /\ answer s <> decode_failure Trouble.deep_text.
Proof. vm_compute. repeat split. discriminate. Qed.

(** C9 (amended) on the answer "not json", a decode error, and on the
    thousand brackets, which are none. *)
Lemma undecodable_answer_is_reported_witness :
  (let s := text_to_sql ext ∅ (ask "s1" "Say anything") in
   answer s = jsonify [("error", VStr "Failed to decode LLM response JSON.");
                       ("llm_response", VStr "not json")] 500
   /\ forall sid', history_of (stored s) sid' = history_of ∅ sid')
  /\ (let s := text_to_sql Trouble.ext ∅ (ask "s1" "Nest it") in
      answer s
      = jsonify [("error", VStr "maximum recursion depth exceeded while decoding a JSON array from a unicode string")] 500
      /\ stored s = ∅).
Proof.
  split.
  - exact (proj1 (undecodable_answer_is_reported ext ∅ (ask "s1" "Say anything")
                    "s1" "Say anything" "not json"
                    eq_refl eq_refl eq_refl eq_refl eq_refl eq_refl) eq_refl).
  - exact (proj2 (undecodable_answer_is_reported Trouble.ext ∅ (ask "s1" "Nest it")
                    "s1" "Nest it" Trouble.deep_text
                    eq_refl eq_refl eq_refl eq_refl eq_refl
                    ltac:(vm_compute; reflexivity)) _ ltac:(vm_compute; reflexivity)).
Defined.

(** C10 on a fallback without a response but with a manual link, and on a
    question without a response. *)
Lemma missing_response_is_not_defaulted_witness :
  (let s := text_to_sql ext ∅ (ask "s1" "Any idea?") in
   exists e, answer s = jsonify [("error", VStr (exn_str e))] 500
             /\ stored s = ∅ /\ e = none_plus_text)
  /\ (let s := text_to_sql ext ∅ (ask "s1" "Ask me something") in
      answer s = jsonify [("response", VNone); ("sql_query", VStr "N/A");
                          ("session_id", VStr "s1"); ("manual_link", VStr "");
                          ("regulation_ref", VStr ""); ("action", VStr "ask")] 200
      /\ stored s = <[ "s1" := Some [user_turn "Ask me something";
                                     assistant_turn VNone] ]> ∅).
Proof.
  split.
  - destruct (missing_response_is_not_defaulted ext ∅ (ask "s1" "Any idea?")
                "s1" "Any idea?" (object_text fallback_without_response)
                (map (fun kv => (kv.1, VStr kv.2)) fallback_without_response)
                eq_refl eq_refl eq_refl eq_refl eq_refl eq_refl eq_refl)
      as [Hfallback _].
    destruct (Hfallback eq_refl eq_refl) as (e & Ha & Hs & He).
    exists e. split; [exact Ha|]. split; [exact Hs|]. exact (He eq_refl).
  - destruct (missing_response_is_not_defaulted ext ∅ (ask "s1" "Ask me something")
                "s1" "Ask me something" (object_text ask_without_response)
                (map (fun kv => (kv.1, VStr kv.2)) ask_without_response)
                eq_refl eq_refl eq_refl eq_refl eq_refl eq_refl eq_refl)
      as [_ Hask].
    exact (Hask eq_refl eq_refl eq_refl).
Defined.

End Examples.

(** ** The request written out *)

Section Stages.
Context (ext : externals).

(** Step 1 written out. *)
Lemma load_history_stages sid table l :
  load_history ext sid (Conn table l) =
  match session_fault ext OpSelect with
  | Some e => (Raise e, Conn table (l ++ [SelectHistory sid]))
  | None =>
    match table !! sid with
    | Some _ => (Next (history_of table sid), Conn table (l ++ [SelectHistory sid]))
    | None =>
      match session_fault ext OpInsert with
      | Some e =>
          (Raise e, Conn table (l ++ [SelectHistory sid; InsertSession sid []]))
      | None =>
          (Next [], Conn (<[sid := Some []]> table)
                      (l ++ [SelectHistory sid; InsertSession sid []]))
      end
    end
  end.
Proof.
  unfold load_history, select_history, insert_session, history_of, attempt.
  destruct (session_fault ext OpSelect); [by tx_unfold|].
  destruct (table !! sid) as [[[|t h]|]|] eqn:E;
    [tx_unfold; cbn; by rewrite E..|].
  destruct (session_fault ext OpInsert); tx_unfold; cbn; rewrite E; cbn;
    by rewrite <- (assoc_L (++)).
Qed.

(** The block of the transaction written out stage by stage. *)
Lemma in_transaction_stages sid q table l :
  in_transaction ext sid q (Conn table l) =
  match session_fault ext OpSelect with
  | Some e => (Raise e, Conn table (l ++ [SelectHistory sid]))
  | None =>
    match (match table !! sid with
           | Some _ => None
           | None => session_fault ext OpInsert
           end) with
    | Some e => (Raise e, Conn table (l ++ opening table sid))
    | None =>
      let l1 := l ++ opening table sid in
      let h := history_of table sid ++ [user_turn q] in
      match invoke_chain ext q h with
      | Raised e => (Raise e, Conn (created table sid) l1)
      | Value t =>
        match parse_decision ext t with
        | None => (Return (decode_failure t), Conn (created table sid) l1)
        | Some (Raised e) => (Raise e, Conn (created table sid) l1)
        | Some (Value d) =>
          let l2 := l1 ++ map RunQuery (queries_of d) in
          match acted ext d with
          | Next (final, sq) =>
            let h' := h ++ [assistant_turn final] in
            match session_fault ext OpUpdate with
            | Some e =>
                (Raise e, Conn (created table sid) (l2 ++ [UpdateHistory sid h']))
            | None =>
                (Next (jsonify (ok_body sid d final sq) 200),
                 Conn (<[sid := Some h']> table) (l2 ++ [UpdateHistory sid h']))
            end
          | Return r => (Return r, Conn (created table sid) l2)
          | Raise e => (Raise e, Conn (created table sid) l2)
          end
        end
      end
    end
  end.
Proof.
  unfold in_transaction. unfold mbind at 1, tx_mbind, tx_bind.
  rewrite load_history_stages. unfold opening, created.
  destruct (session_fault ext OpSelect) as [e|]; [done|].
  assert (Hstep : forall h tbl l1,
    (let (f, c') := (Next h, Conn tbl l1) in
     match f with
     | Next a =>
         (run (invoke_chain ext q (a ++ [user_turn q]))
          ≫= λ llm_response_str,
               match parse_decision ext llm_response_str with
               | Some fields =>
                   run fields
                   ≫= λ d, execute_action ext d
                        ≫= λ '(final_response, sql_query_for_response),
                             update_history ext sid
                               ((a ++ [user_turn q]) ++ [assistant_turn final_response])
                             ≫= λ _ : (),
                                  mret (jsonify
                                          [("response", final_response);
                                           ("sql_query", sql_query_for_response);
                                           ("session_id", VStr sid);
                                           ("manual_link", manual_link d);
                                           ("regulation_ref", regulation_ref d);
                                           ("action", action d)] 200)
               | None => leave (decode_failure llm_response_str)
               end) c'
     | Return r => (Return r, c')
     | Raise e => (Raise e, c')
     end) =
    match invoke_chain ext q (h ++ [user_turn q]) with
    | Raised e => (Raise e, Conn tbl l1)
    | Value t =>
      match parse_decision ext t with
      | None => (Return (decode_failure t), Conn tbl l1)
      | Some (Raised e) => (Raise e, Conn tbl l1)
      | Some (Value d) =>
        match acted ext d with
        | Next (final, sq) =>
          match session_fault ext OpUpdate with
          | Some e =>
              (Raise e,
               Conn tbl ((l1 ++ map RunQuery (queries_of d))
                         ++ [UpdateHistory sid ((h ++ [user_turn q]) ++ [assistant_turn final])]))
          | None =>
              (Next (jsonify (ok_body sid d final sq) 200),
               Conn (match tbl !! sid with
                     | Some _ => <[sid := Some ((h ++ [user_turn q]) ++ [assistant_turn final])]> tbl
                     | None => tbl
                     end)
                    ((l1 ++ map RunQuery (queries_of d))
                     ++ [UpdateHistory sid ((h ++ [user_turn q]) ++ [assistant_turn final])]))
          end
        | Return r => (Return r, Conn tbl (l1 ++ map RunQuery (queries_of d)))
        | Raise e => (Raise e, Conn tbl (l1 ++ map RunQuery (queries_of d)))
        end
      end
    end).
  { intros h tbl l1. cbv beta iota. unfold mbind at 1, tx_mbind, tx_bind.
    destruct (invoke_chain ext q _) as [t|e]; [|done]. cbn [run]. unfold mret at 1, tx_ret.
    destruct (parse_decision ext t) as [[d|e]|]; [|done..].
    unfold mbind at 1, tx_mbind, tx_bind. cbn [run]. unfold mret at 1, tx_ret.
    unfold mbind at 1, tx_mbind, tx_bind. rewrite execute_action_frame.
    cbn [sessions sent].
    destruct (acted ext d) as [[final sq]|r|e]; [|done..].
    unfold update_history. tx_unfold. cbn [sessions sent].
    by destruct (session_fault ext OpUpdate). }
  destruct (table !! sid) as [stored|] eqn:E.
  - rewrite Hstep, E. reflexivity.
  - destruct (session_fault ext OpInsert) as [e|]; [done|].
    rewrite Hstep, lookup_insert_eq.
    unfold history_of. rewrite E.
    destruct (invoke_chain ext q _) as [t|e]; [|done].
    destruct (parse_decision ext t) as [[d|e]|]; [|done..].
    destruct (acted ext d) as [[final sq]|r|e]; [|done..].
    destruct (session_fault ext OpUpdate); [done|]. by rewrite insert_insert_eq.
Qed.

(** The request written out: the two checks, then the stages. *)
Lemma text_to_sql_stages table data :
  text_to_sql ext table data =
  match present (sessionId data) with
  | None => Served (jsonify [("error", VStr "No session ID provided")] 400) table []
  | Some sid =>
    match present (question data) with
    | None => Served (jsonify [("error", VStr "No question provided")] 400) table []
    | Some q =>
      match in_transaction ext sid q (Conn table []) with
      | (Next r, c) | (Return r, c) => Served r (sessions c) (sent c)
      | (Raise e, c) => Served (failure e) table (sent c)
      end
    end
  end.
Proof. reflexivity. Qed.

(** A request that reaches the chain's answer. *)
Lemma text_to_sql_answered table data sid q t :
  present (sessionId data) = Some sid -> present (question data) = Some q ->
  session_fault ext OpSelect = None -> session_fault ext OpInsert = None ->
  invoke_chain ext q (history_of table sid ++ [user_turn q]) = Value t ->
  text_to_sql ext table data =
  match parse_decision ext t with
  | None => Served (decode_failure t) (created table sid) (opening table sid)
  | Some (Raised e) => Served (failure e) table (opening table sid)
  | Some (Value d) =>
    let l2 := opening table sid ++ map RunQuery (queries_of d) in
    match acted ext d with
    | Next (final, sq) =>
      let h' := (history_of table sid ++ [user_turn q]) ++ [assistant_turn final] in
      match session_fault ext OpUpdate with
      | Some e => Served (failure e) table (l2 ++ [UpdateHistory sid h'])
      | None =>
          Served (jsonify (ok_body sid d final sq) 200)
            (<[sid := Some h']> table) (l2 ++ [UpdateHistory sid h'])
      end
    | Return r => Served r (created table sid) l2
    | Raise e => Served (failure e) table l2
    end
  end.
Proof.
  intros Hsid Hq Hsel Hins Ht.
  rewrite text_to_sql_stages, Hsid, Hq, in_transaction_stages, Hsel, Hins. cbv zeta.
  rewrite Ht.
  assert (Hnone : match table !! sid with Some _ => @None exn | None => None end = None)
    by by destruct (table !! sid).
  rewrite Hnone.
  destruct (parse_decision ext t) as [[d|e]|]; try done.
  destruct (acted ext d) as [[final sq]|r|e]; try done.
  by destruct (session_fault ext OpUpdate).
Qed.
End Stages.

Lemma queries_run_app l1 l2 : queries_run (l1 ++ l2) = queries_run l1 ++ queries_run l2.
Proof. apply flat_map_app. Qed.

Lemma queries_run_opening table sid : queries_run (opening table sid) = [].
Proof. unfold opening, queries_run. by destruct (table !! sid). Qed.

Lemma queries_run_queries l : queries_run (map RunQuery l) = l.
Proof. induction l as [|x l IH]; [done|]. unfold queries_run in *. simpl. by rewrite IH. Qed.

Lemma created_other table sid k : sid <> k -> created table sid !! k = table !! k.
Proof.
  intros Hne. unfold created. destruct (table !! sid); [done|].
  by rewrite lookup_insert_ne.
Qed.

Lemma history_of_lookup (t1 t2 : sessions_table) sid :
  t1 !! sid = t2 !! sid -> history_of t1 sid = history_of t2 sid.
Proof. unfold history_of. by intros ->. Qed.

Lemma created_same (t1 t2 : sessions_table) sid :
  t1 !! sid = t2 !! sid -> created t1 sid !! sid = created t2 sid !! sid.
Proof.
  intros H. unfold created. rewrite <- H.
  destruct (t1 !! sid) eqn:E; [by rewrite <- H|]. by rewrite !lookup_insert_eq.
Qed.

Lemma opening_same (t1 t2 : sessions_table) sid :
  t1 !! sid = t2 !! sid -> opening t1 sid = opening t2 sid.
Proof. unfold opening. by intros ->. Qed.

Lemma opening_session table sid :
  Forall (fun st => session_of st = Some sid) (opening table sid).
Proof. unfold opening. destruct (table !! sid); repeat constructor. Qed.

(** Takes a request apart stage by stage, in the order the handler runs
    them. *)
Ltac stages ext :=
  rewrite text_to_sql_stages;
  repeat match goal with
  | |- context [present ?f] => destruct (present f) eqn:?
  end;
  rewrite ?in_transaction_stages; cbv zeta;
  repeat match goal with
  | |- context [session_fault ext ?op] => destruct (session_fault ext op) eqn:?
  | |- context [match ?t !! ?k with _ => _ end] => destruct (t !! k) eqn:?
  | |- context [invoke_chain ext ?q ?h] => destruct (invoke_chain ext q h) eqn:?
  | |- context [parse_decision ext ?t] =>
      destruct (parse_decision ext t) as [[?|?]|] eqn:?
  | |- context [acted ext ?d] => destruct (acted ext d) as [[? ?]|?|?] eqn:?
  end.

(** ** The request as a whole *)

Section Request.
Context (ext : externals).


(** The row of a session the request is not about stays as it is. *)
Lemma stored_elsewhere table data k :
  present (sessionId data) <> Some k ->
  stored (text_to_sql ext table data) !! k = table !! k.
Proof.
  intros Hk. stages ext; cbn [stored sessions]; try done;
    try (apply created_other; congruence).
  all: try (apply lookup_insert_ne; congruence).
Qed.

(** Every statement with a [:session_id] parameter carries the request's. *)
Lemma statements_session table data :
  Forall (fun st => session_of st = None \/ session_of st = present (sessionId data))
    (statements (text_to_sql ext table data)).
Proof.
  assert (Hopen : forall sid,
            Forall (fun st => session_of st = None \/ session_of st = Some sid)
              (opening table sid)).
  { intros sid. eapply Forall_impl; [apply opening_session|]. by right. }
  assert (Hrun : forall sid l,
            Forall (fun st => session_of st = None \/ session_of st = Some sid)
              (map RunQuery l)).
  { intros sid l. apply Forall_forall. intros st (? & -> & _)%list_elem_of_fmap. by left. }
  stages ext; cbn [statements sent app]; rewrite ?Forall_app;
    repeat split; try apply Hopen; try apply Hrun;
    repeat first [apply Forall_nil_2 | apply Forall_cons_2; [by right|]].
Qed.

(** X2. A request leaves the rows of all other sessions alone: the stored
    entry of every session but the one named in the request is the same
    after it, whatever the request does and however it ends, and no
    statement it sends names another session.  (The query a request runs
    is taken to leave [chat_sessions] alone.) *)
Theorem other_sessions_untouched table data k :
  present (sessionId data) <> Some k ->
  let s := text_to_sql ext table data in
  stored s !! k = table !! k
  /\ history_of (stored s) k = history_of table k
  /\ Forall (fun st => session_of st <> Some k) (statements s).
Proof.
  intros Hk s. subst s.
  pose proof (stored_elsewhere table data k Hk) as Hs.
  split; [done|]. split; [by apply history_of_lookup|].
  eapply Forall_impl; [apply statements_session|].
  intros st [H|H]; rewrite H; [done|]. simpl. congruence.
Qed.

(** A request sees of the table only the row of its own session. *)
Lemma same_entry (t1 t2 : sessions_table) data sid :
  present (sessionId data) = Some sid -> t1 !! sid = t2 !! sid ->
  answer (text_to_sql ext t1 data) = answer (text_to_sql ext t2 data)
  /\ statements (text_to_sql ext t1 data) = statements (text_to_sql ext t2 data)
  /\ stored (text_to_sql ext t1 data) !! sid = stored (text_to_sql ext t2 data) !! sid.
Proof.
  intros Hsid Hsame. rewrite !text_to_sql_stages, Hsid.
  destruct (present (question data)) as [q|] eqn:Hq; [|done].
  rewrite !in_transaction_stages. cbv zeta.
  rewrite <- (history_of_lookup t1 t2 sid Hsame), <- (opening_same t1 t2 sid Hsame),
    <- Hsame.
  pose proof (created_same t1 t2 sid Hsame) as Hc.
  repeat match goal with
  | |- context [session_fault ext ?op] => destruct (session_fault ext op) eqn:?
  | |- context [match ?t !! ?k with _ => _ end] => destruct (t !! k) eqn:?
  | |- context [invoke_chain ext ?q ?h] => destruct (invoke_chain ext q h) eqn:?
  | |- context [parse_decision ext ?t] => destruct (parse_decision ext t) as [[?|?]|] eqn:?
  | |- context [acted ext ?d] => destruct (acted ext d) as [[? ?]|?|?] eqn:?
  end; cbn [answer stored statements sessions sent];
    (split; [done|split; [done|]]);
    first [done | congruence | exact Hc | by rewrite !lookup_insert_eq].
Qed.

(** X3. What a request does depends on the stored sessions only through
    the row of its own session: under two tables that agree on that row
    the reply is the same, the statements sent are the same, and the row is
    the same afterwards.  This takes the chain and the store to answer the
    request alike under both tables: the services of the model are not
    given the session table, although the query the model writes runs on
    the handler's connection and could read [chat_sessions]. *)
Theorem request_reads_its_session_only (t1 t2 : sessions_table) data :
  (forall sid, present (sessionId data) = Some sid -> t1 !! sid = t2 !! sid) ->
  let s1 := text_to_sql ext t1 data in
  let s2 := text_to_sql ext t2 data in
  answer s1 = answer s2
  /\ statements s1 = statements s2
  /\ forall sid, present (sessionId data) = Some sid ->
       stored s1 !! sid = stored s2 !! sid.
Proof.
  intros Hsame s1 s2. subst s1 s2.
  destruct (present (sessionId data)) as [sid|] eqn:Hsid.
  - destruct (same_entry t1 t2 data sid Hsid (Hsame sid eq_refl)) as (Ha & Hl & Hs).
    repeat split; try done. by intros ? [= <-].
  - rewrite !text_to_sql_stages, Hsid. done.
Qed.

(** A row with a NULL or empty history reads like no row, as long as the
    [INSERT] of a new session passes. *)
Lemma same_history (t1 t2 : sessions_table) data sid :
  present (sessionId data) = Some sid ->
  session_fault ext OpInsert = None ->
  history_of t1 sid = history_of t2 sid ->
  answer (text_to_sql ext t1 data) = answer (text_to_sql ext t2 data)
  /\ queries_run (statements (text_to_sql ext t1 data))
     = queries_run (statements (text_to_sql ext t2 data))
  /\ history_of (stored (text_to_sql ext t1 data)) sid
     = history_of (stored (text_to_sql ext t2 data)) sid.
Proof.
  intros Hsid Hins Hh. rewrite !text_to_sql_stages, Hsid.
  destruct (present (question data)) as [q|]; [|done].
  rewrite !in_transaction_stages, Hins. cbv zeta. rewrite <- Hh.
  assert (Hnone : forall t : sessions_table,
            match t !! sid with Some _ => @None exn | None => None end = None)
    by (intros t; by destruct (t !! sid)).
  rewrite !Hnone.
  repeat match goal with
  | |- context [session_fault ext ?op] => destruct (session_fault ext op) eqn:?
  | |- context [invoke_chain ext ?q ?h] => destruct (invoke_chain ext q h) eqn:?
  | |- context [parse_decision ext ?t] => destruct (parse_decision ext t) as [[?|?]|] eqn:?
  | |- context [acted ext ?d] => destruct (acted ext d) as [[? ?]|?|?] eqn:?
  end; cbn [answer stored statements sessions sent app];
    rewrite ?queries_run_app, ?queries_run_opening, ?history_of_created,
      ?history_of_insert, ?String.eqb_refl;
    done.
Qed.

(** X4. The reply goes by the history, not by the row: a session that is
    unknown, one stored with a NULL history and one stored with an empty
    history are answered alike.  Under two tables in which the request's
    session has the same history, and with the [INSERT] of a new session
    passing, the reply is the same, the same queries are run, and the
    session has the same history afterwards.  This takes the chain and the
    store to answer the request alike under both tables: the services of
    the model are not given the session table, although the query the
    model writes runs on the handler's connection and could tell a NULL
    history from an empty one. *)
Theorem reply_goes_by_the_history (t1 t2 : sessions_table) data sid :
  present (sessionId data) = Some sid ->
  session_fault ext OpInsert = None ->
  history_of t1 sid = history_of t2 sid ->
  let s1 := text_to_sql ext t1 data in
  let s2 := text_to_sql ext t2 data in
  answer s1 = answer s2
  /\ queries_run (statements s1) = queries_run (statements s2)
  /\ history_of (stored s1) sid = history_of (stored s2) sid.
Proof. intros Hsid Hins Hh s1 s2. by apply same_history. Qed.
End Request.

(** ** What a request sends *)

Section Sent.
Context (ext : externals).

Lemma queries_of_short d : length (queries_of d) <= 1.
Proof.
  unfold queries_of. destruct (_ && _); [|simpl; lia].
  destruct (sql_query d); simpl; lia.
Qed.

(** A decision that runs a query was read from an object whose action is
    [query] and whose [sql_query] is non-empty text. *)
Lemma queries_of_parsed t d sql :
  parse_decision ext t = Some (Value d) -> sql ∈ queries_of d ->
  exists j q0,
    json_loads ext (strip_fences t) = Some (VDict j)
    /\ dict_get j "action" VNone = VStr "query"
    /\ dict_get j "sql_query" VNone = VStr q0
    /\ q0 <> "" /\ sql = rewrite_aliases q0.
Proof.
  unfold parse_decision. cbv zeta.
  destruct (json_loads ext _) as [v|]; [|by destruct (json_raises ext _)].
  simpl. intros [= Hd]. destruct v as [| | | | | |j]; try done.
  unfold read_decision in Hd. unfold queries_of.
  destruct (truthy (dict_get j "sql_query" VNone)) eqn:Htr.
  - destruct (dict_get j "sql_query" VNone) as [| | | |q0| |] eqn:Hsql; try done.
    simpl in Hd. injection Hd as <-. cbn [action sql_query].
    destruct (eq_text _ _) eqn:Hact; [|by intros ?%elem_of_nil].
    destruct (truthy (VStr (rewrite_aliases q0))); simpl; [|by intros ?%elem_of_nil].
    intros ->%list_elem_of_singleton. exists j, q0. repeat split; try done.
    + destruct (dict_get j "action" VNone); try done.
      simpl in Hact. by apply String.eqb_eq in Hact as ->.
    + by intros ->.
  - simpl in Hd. injection Hd as <-. cbn [action sql_query].
    rewrite Htr, andb_false_r. by intros ?%elem_of_nil.
Qed.

(** The queries a request runs, traced back to the answer they come from. *)
Lemma queries_run_parsed table data sql :
  sql ∈ queries_run (statements (text_to_sql ext table data)) ->
  exists sid q t j q0,
    present (sessionId data) = Some sid /\ present (question data) = Some q
    /\ invoke_chain ext q (history_of table sid ++ [user_turn q]) = Value t
    /\ json_loads ext (strip_fences t) = Some (VDict j)
    /\ dict_get j "action" VNone = VStr "query"
    /\ dict_get j "sql_query" VNone = VStr q0
    /\ q0 <> "" /\ sql = rewrite_aliases q0.
Proof.
  revert sql.
  stages ext; cbn [statements sent app];
    rewrite ?queries_run_app, ?queries_run_opening, ?queries_run_queries;
    cbn [queries_run flat_map app]; rewrite ?app_nil_r;
    try (by intros ? ?%elem_of_nil).
  all: intros sql Hsql;
    match goal with Hp : parse_decision ext ?t = Some (Value ?d) |- _ =>
      destruct (queries_of_parsed t d sql Hp Hsql) as (j & q0 & ?)
    end; by eexists _, _, _, j, q0.
Qed.

Lemma queries_run_short table data :
  length (queries_run (statements (text_to_sql ext table data))) <= 1.
Proof.
  stages ext; cbn [statements sent app];
    rewrite ?queries_run_app, ?queries_run_opening, ?queries_run_queries;
    cbn [queries_run flat_map app]; rewrite ?app_nil_r;
    try (simpl; lia); apply queries_of_short.
Qed.

(** X5. The only query a request can run is the one the model decided on.
    A request runs at most one query, and a query that is run is the
    rewritten [sql_query] of the object decoded from the chain's answer to
    this request, whose [action] is the text [query] and whose [sql_query]
    is non-empty text.  Nothing of the request body or of the stored history
    reaches the database as a query any other way. *)
Theorem only_the_decided_query_runs table data :
  let s := text_to_sql ext table data in
  length (queries_run (statements s)) <= 1
  /\ forall sql, sql ∈ queries_run (statements s) ->
       exists sid q t j q0,
         present (sessionId data) = Some sid /\ present (question data) = Some q
         /\ invoke_chain ext q (history_of table sid ++ [user_turn q]) = Value t
         /\ json_loads ext (strip_fences t) = Some (VDict j)
         /\ dict_get j "action" VNone = VStr "query"
         /\ dict_get j "sql_query" VNone = VStr q0
         /\ q0 <> "" /\ sql = rewrite_aliases q0.
Proof.
  intros s. subst s. split; [apply queries_run_short|apply queries_run_parsed].
Qed.

(** The second and the third replacement leave none of their patterns. *)
Lemma rewrite_aliases_rules_2_3 q :
  contains (rewrite_aliases q) " bf.model," = false
  /\ contains (rewrite_aliases q) ".model =" = false.
Proof.
  unfold rewrite_aliases.
  change (Text.replace (Text.replace (Text.replace q " bf.model " " bf.model_name ")
                     " bf.model," " bf.model_name,") ".model =" ".model_name =")
    with (scan ".model =" ".model_name ="
            (scan " bf.model," " bf.model_name,"
               (scan " bf.model " " bf.model_name " q))).
  set (q1 := scan " bf.model " " bf.model_name " q).
  pose proof (rule2_clears _ q1 (le_n _)) as H2.
  set (q2 := scan " bf.model," " bf.model_name," q1) in *.
  split; [by apply rule3_keeps_rule2|apply (rule3_clears _ q2 (le_n _))].
Qed.

(** X6. No query reaches the database with the alias in the forms of the
    second and third replacement: a query that is run contains neither
    [" bf.model,"] nor [".model ="]. *)
Theorem queries_run_are_rewritten table data :
  Forall (fun sql => contains sql " bf.model," = false
                     /\ contains sql ".model =" = false)
    (queries_run (statements (text_to_sql ext table data))).
Proof.
  apply Forall_forall. intros sql Hsql.
  destruct (queries_run_parsed table data sql Hsql)
    as (_ & _ & _ & _ & q0 & _ & _ & _ & _ & _ & _ & _ & ->).
  apply rewrite_aliases_rules_2_3.
Qed.

(** X7. The statements of a request come in the handler's order.  Whatever
    is sent starts with the [SELECT] of the request's session.  A request
    that ends with status 200 has sent exactly: the [SELECT], the [INSERT]
    when the session was unknown, at most one query, and last the [UPDATE]
    of the session with the history that is stored afterwards.  A request
    that ends otherwise has sent no [UPDATE], unless the [UPDATE] itself is
    what failed. *)
Theorem statements_in_order table data :
  let s := text_to_sql ext table data in
  (statements s = []
   \/ exists sid rest,
        present (sessionId data) = Some sid
        /\ statements s = SelectHistory sid :: rest)
  /\ (status (answer s) = 200%Z ->
      exists sid queries,
        present (sessionId data) = Some sid /\ length queries <= 1
        /\ statements s
           = opening table sid ++ map RunQuery queries
             ++ [UpdateHistory sid (history_of (stored s) sid)])
  /\ (status (answer s) <> 200%Z -> session_fault ext OpUpdate = None ->
      forall sid h, UpdateHistory sid h ∉ statements s).
Proof.
  intros s. subst s.
  assert (Hno : forall sid l sid' h,
            UpdateHistory sid' h ∉ opening table sid ++ map RunQuery l).
  { intros sid l sid' h [H|H]%elem_of_app.
    - unfold opening in H. destruct (table !! sid);
        repeat (apply elem_of_cons in H as [H|H]; [done|]); by apply elem_of_nil in H.
    - apply list_elem_of_fmap in H as (? & ? & _). done. }
  stages ext; cbn [statements sent answer stored sessions status app decode_failure
                 failure jsonify];
    (split; [first [by left | right; by eexists _, _]|]);
    (split; [try done|intros Hst Hupd sid' h; try done]).
  all: try (rewrite <- (right_id_L [] (++) (opening table _)); 
            change (@nil statement) with (map RunQuery []); apply Hno).
  all: try (rewrite <- (assoc_L (++)); apply Hno).
  all: try (intros [=]%list_elem_of_singleton).
  all: try (intros _; eexists _, _; split; [done|]; split; [apply queries_of_short|];
            rewrite history_of_insert, String.eqb_refl, <- !(assoc_L (++)); done).
  all: try apply not_elem_of_nil.
  all: exfalso; eapply acted_no_return; eassumption.
Qed.
End Sent.

(** ** Answers that decode but cannot be acted on, and errors of the store *)

Section Failures.
Context (ext : externals).

(** X8. An answer that decodes to something other than an object (a list,
    a number, a text, [null]) is not a decode failure: reading its first
    field raises, the request ends with status 500 and the message of the
    [AttributeError], and the transaction is rolled back, so that here,
    unlike after a decode failure, a session created by this request is not
    kept.  No query is run. *)
Theorem answer_must_be_an_object table data sid q t v :
  present (sessionId data) = Some sid -> present (question data) = Some q ->
  session_fault ext OpSelect = None -> session_fault ext OpInsert = None ->
  invoke_chain ext q (history_of table sid ++ [user_turn q]) = Value t ->
  json_loads ext (strip_fences t) = Some v ->
  is_object v = false ->
  let s := text_to_sql ext table data in
  answer s
  = jsonify [("error",
              VStr ("'" +:+ type_name v +:+ "' object has no attribute 'get'"))] 500
  /\ stored s = table
  /\ statements s = opening table sid.
Proof.
  intros Hsid Hq Hsel Hins Ht Hv Hobj s. subst s.
  rewrite (text_to_sql_answered ext table data sid q t) by done.
  rewrite (parse_decision_loaded ext _ _ Hv).
  by destruct v.
Qed.

(** X9. An object whose [sql_query] is neither text nor falsy (a non-zero
    number, [true], a non-empty list or object) cannot be rewritten:
    [.replace] raises, the request ends with status 500 and the message of
    the [AttributeError], nothing is run and nothing is stored. *)
Theorem query_must_be_text table data sid q t j :
  present (sessionId data) = Some sid -> present (question data) = Some q ->
  session_fault ext OpSelect = None -> session_fault ext OpInsert = None ->
  invoke_chain ext q (history_of table sid ++ [user_turn q]) = Value t ->
  json_loads ext (strip_fences t) = Some (VDict j) ->
  text_or_falsy (dict_get j "sql_query" VNone) = false ->
  let s := text_to_sql ext table data in
  answer s
  = jsonify [("error",
              VStr ("'" +:+ type_name (dict_get j "sql_query" VNone)
                    +:+ "' object has no attribute 'replace'"))] 500
  /\ stored s = table
  /\ statements s = opening table sid.
Proof.
  intros Hsid Hq Hsel Hins Ht Hj Hsql s. subst s.
  rewrite (text_to_sql_answered ext table data sid q t) by done.
  rewrite (parse_decision_loaded ext _ _ Hj).
  unfold read_decision, text_or_falsy in *.
  destruct (dict_get j "sql_query" VNone) as [|[]|n|f|q0|[]|[]]; try done; simpl in *.
  - by destruct (n =? 0)%Z.
  - by destruct (PrimFloat.eqb f PrimFloat.zero).
Qed.

(** X10. A query the store rejects undoes the whole request.  When the
    decided query raises, the reply is status 500 with the store's message,
    the query was the last statement sent (no [UPDATE] follows), and the
    transaction is rolled back: the question is not added to the history,
    and a session created by this request is not kept. *)
Theorem failed_query_undoes_the_request table data sid q t j q0 e :
  present (sessionId data) = Some sid -> present (question data) = Some q ->
  session_fault ext OpSelect = None -> session_fault ext OpInsert = None ->
  invoke_chain ext q (history_of table sid ++ [user_turn q]) = Value t ->
  json_loads ext (strip_fences t) = Some (VDict j) ->
  dict_get j "action" VNone = VStr "query" ->
  dict_get j "sql_query" VNone = VStr q0 -> q0 <> "" ->
  fetchall ext (rewrite_aliases q0) = Raised e ->
  let s := text_to_sql ext table data in
  answer s = jsonify [("error", VStr (exn_str e))] 500
  /\ stored s = table
  /\ statements s = opening table sid ++ [RunQuery (rewrite_aliases q0)].
Proof.
  intros Hsid Hq Hsel Hins Ht Hj Hact Hsql Hne He s. subst s.
  rewrite (text_to_sql_answered ext table data sid q t) by done.
  rewrite (parse_decision_loaded ext _ _ Hj).
  rewrite read_decision_text by (by rewrite Hsql).
  rewrite Hsql, Hact. cbv zeta.
  assert (Htr : truthy (VStr (rewrite_aliases q0)) = true)
    by by apply truthy_text, rewrite_aliases_nonempty.
  unfold acted, queries_of, execute_action, execute_query.
  cbn [action sql_query eq_text String.eqb Ascii.eqb Bool.eqb andb].
  rewrite Htr. tx_unfold. cbv beta iota. rewrite He. done.
Qed.

(** X11. Every request is answered, with one of three statuses.  Status
    200 carries exactly the six fields [response], [sql_query],
    [session_id], [manual_link], [regulation_ref] and [action] (in whatever
    order they are sent) and no [error]; status 400 and status 500 carry an
    [error] text and no [response].  (The body of the request is a JSON
    object whose two fields are text or falsy.) *)
Theorem replies_by_status table data :
  let r := answer (text_to_sql ext table data) in
  (status r = 200%Z
   /\ map fst (body r) ≡ₚ ["action"; "manual_link"; "regulation_ref"; "response";
                           "session_id"; "sql_query"]
   /\ ~ In "error" (map fst (body r)))
  \/ ((status r = 400%Z \/ status r = 500%Z)
      /\ (exists msg, dict_get (body r) "error" VNone = VStr msg)
      /\ ~ In "response" (map fst (body r))).
Proof.
  intros r. subst r.
  assert (Hsix : ["response"; "sql_query"; "session_id"; "manual_link";
                  "regulation_ref"; "action"]
                 ≡ₚ ["action"; "manual_link"; "regulation_ref"; "response";
                     "session_id"; "sql_query"]).
  { apply (Permutation_cons_app ["action"; "manual_link"; "regulation_ref"]
             ["session_id"; "sql_query"]).
    apply (Permutation_cons_app
             ["action"; "manual_link"; "regulation_ref"; "session_id"] []).
    apply (Permutation_cons_app ["action"; "manual_link"; "regulation_ref"] []).
    apply (Permutation_cons_app ["action"] ["regulation_ref"]).
    by apply (Permutation_cons_app ["action"] []). }
  stages ext; cbn [answer decode_failure failure jsonify status body ok_body map fst];
    first [left; split; [done|]; split; [exact Hsix|]; cbn; intuition discriminate
          | right; split; [by (left + right)|]; split; [by eexists|];
            cbn; intuition discriminate
          | exfalso; eapply acted_no_return; eassumption ].
Qed.
End Failures.

(** ** Requests of many sessions, one after the other *)

Section Sequences.

Lemma serve_step (table : sessions_table) (r : externals * request) rest :
  serve table (r :: rest)
  = ((serve (stored (text_to_sql r.1 table r.2)) rest).1,
     (r.2, answer (text_to_sql r.1 table r.2))
     :: (serve (stored (text_to_sql r.1 table r.2)) rest).2).
Proof. destruct r as [ext data]. cbn [serve fst snd]. by destruct (serve _ rest). Qed.

(** X12. Requests of two different sessions can be served in either order:
    the table that results is the same, and each request gets the same
    reply.  (Each request keeps its own answers of the services.) *)
Theorem requests_of_two_sessions_commute (r1 r2 : externals * request)
    (table : sessions_table) :
  present (sessionId r1.2) <> present (sessionId r2.2) ->
  (serve table [r1; r2]).1 = (serve table [r2; r1]).1
  /\ (serve table [r1; r2]).2 = reverse (serve table [r2; r1]).2.
Proof.
  destruct r1 as [e1 d1], r2 as [e2 d2]. cbn [fst snd serve]. intros Hne.
  set (a := text_to_sql e1 table d1). set (a' := text_to_sql e2 table d2).
  assert (Hb : forall k, present (sessionId d2) = Some k -> stored a !! k = table !! k).
  { intros k Hk. apply stored_elsewhere. congruence. }
  assert (Hb' : forall k, present (sessionId d1) = Some k -> stored a' !! k = table !! k).
  { intros k Hk. apply stored_elsewhere. congruence. }
  assert (Ha2 : answer (text_to_sql e2 (stored a) d2) = answer a').
  { destruct (present (sessionId d2)) as [k|] eqn:Hk.
    - by apply (same_entry e2 (stored a) table d2 k Hk), Hb.
    - subst a'. by rewrite !text_to_sql_stages, Hk. }
  assert (Ha1 : answer (text_to_sql e1 (stored a') d1) = answer a).
  { destruct (present (sessionId d1)) as [k|] eqn:Hk.
    - by apply (same_entry e1 (stored a') table d1 k Hk), Hb'.
    - subst a. by rewrite !text_to_sql_stages, Hk. }
  split; [|by rewrite Ha1, Ha2].
  apply map_eq. intros k.
  destruct (decide (present (sessionId d1) = Some k)) as [H1|H1];
    [|destruct (decide (present (sessionId d2) = Some k)) as [H2|H2]].
  - rewrite stored_elsewhere by congruence.
    symmetry. apply (same_entry e1 (stored a') table d1 k H1), Hb', H1.
  - rewrite (stored_elsewhere e1 (stored a')) by done.
    apply (same_entry e2 (stored a) table d2 k H2), Hb, H2.
  - rewrite !stored_elsewhere by done.
    subst a a'. by rewrite !stored_elsewhere by done.
Qed.

(** X13. Sessions are isolated from one another.  However the requests
    of a session are interleaved with those of other sessions, its requests
    get the replies they would get if they were served alone, and its row
    is afterwards what it would be then.  (Requests are served one at a
    time, and the queries they run are taken to leave [chat_sessions]
    alone.) *)
Theorem sessions_are_isolated (requests : list (externals * request))
    (table : sessions_table) (k : string) :
  replies_of k (serve table requests).2 = (serve table (of_session k requests)).2
  /\ (serve table requests).1 !! k = (serve table (of_session k requests)).1 !! k.
Proof.
  enough (Hgen : forall t1 t2 : sessions_table,
            t1 !! k = t2 !! k ->
            replies_of k (serve t1 requests).2 = (serve t2 (of_session k requests)).2
            /\ (serve t1 requests).1 !! k
               = (serve t2 (of_session k requests)).1 !! k)
    by by apply Hgen.
  induction requests as [|[ext data] rest IH]; intros t1 t2 Ht; [done|].
  rewrite serve_step. unfold of_session, replies_of in *.
  cbn [List.filter fst snd].
  destruct (for_session k data) eqn:Hk.
  - rewrite serve_step. cbn [fst snd].
    assert (Hsid : present (sessionId data) = Some k).
    { unfold for_session in Hk. destruct (present (sessionId data)); [|done].
      by apply String.eqb_eq in Hk as ->. }
    destruct (same_entry ext t1 t2 data k Hsid Ht) as (Ha & _ & Hs).
    destruct (IH _ _ Hs) as (IH1 & IH2). by rewrite Ha, IH1, IH2.
  - apply IH. rewrite stored_elsewhere; [done|].
    unfold for_session in Hk. intros Hsid. rewrite Hsid in Hk.
    by rewrite String.eqb_refl in Hk.
Qed.

(** A request served under two tables with the same histories. *)
Lemma same_histories_step ext (t1 t2 : sessions_table) data :
  same_histories t1 t2 -> session_fault ext OpInsert = None ->
  answer (text_to_sql ext t1 data) = answer (text_to_sql ext t2 data)
  /\ same_histories (stored (text_to_sql ext t1 data))
       (stored (text_to_sql ext t2 data)).
Proof.
  intros Hh Hins. destruct (present (sessionId data)) as [sid|] eqn:Hsid.
  - destruct (same_history ext t1 t2 data sid Hsid Hins (Hh sid)) as (Ha & _ & Hs).
    split; [done|]. intros k. destruct (decide (sid = k)) as [<-|Hk]; [done|].
    rewrite (history_of_lookup _ t1 k), (history_of_lookup (stored (text_to_sql ext t2 data)) t2 k);
      [apply Hh|apply stored_elsewhere; congruence..].
  - rewrite !text_to_sql_stages, Hsid. done.
Qed.

Lemma serve_same_histories requests : forall t1 t2 : sessions_table,
  same_histories t1 t2 ->
  Forall (fun r => session_fault r.1 OpInsert = None) requests ->
  (serve t1 requests).2 = (serve t2 requests).2
  /\ same_histories (serve t1 requests).1 (serve t2 requests).1.
Proof.
  induction requests as [|[ext data] rest IH]; intros t1 t2 Hh Hins; [done|].
  apply Forall_cons in Hins as [Hins Hrest]. rewrite !serve_step. cbn [fst snd] in *.
  destruct (same_histories_step ext t1 t2 data Hh Hins) as (Ha & Hs).
  destruct (IH _ _ Hs Hrest) as (IH1 & IH2). by rewrite Ha, IH1.
Qed.

(** A request that does not end with status 200 changes no history. *)
Lemma failed_same_histories ext table data :
  status (answer (text_to_sql ext table data)) <> 200%Z ->
  same_histories (stored (text_to_sql ext table data)) table.
Proof.
  intros Hst k.
  destruct (text_to_sql_inv ext table data)
    as [(_ & -> & _)|[(e & _ & ->)|[(sid & q & t & _ & _ & _ & _ & _ & ->)
                                    |(sid & q & t & d & f & sq & _ & _ & _ & _ & _ & Ha & _)]]];
    try done.
  - apply history_of_created.
  - by rewrite Ha in Hst.
Qed.

(** X14. A request that fails leaves no trace in the conversations.  When
    a request ends with a status other than 200 (refused, rolled back, or
    answered with a decode failure), every later request is answered as if
    the failed one had never been made, and every session ends with the
    history it would have had, provided no later [INSERT] of a session
    fails.  Each later request keeps its own answers of the services
    whether or not the failed one was made, and the queries are taken to
    leave [chat_sessions] alone and not to read it: a failed decode leaves
    the empty row of a new session behind, which a query on the handler's
    connection could otherwise see. *)
Theorem failed_request_is_forgotten (r0 : externals * request)
    (rest : list (externals * request)) (table : sessions_table) :
  status (answer (text_to_sql r0.1 table r0.2)) <> 200%Z ->
  Forall (fun r => session_fault r.1 OpInsert = None) rest ->
  (serve table (r0 :: rest)).2
  = (r0.2, answer (text_to_sql r0.1 table r0.2)) :: (serve table rest).2
  /\ same_histories (serve table (r0 :: rest)).1 (serve table rest).1.
Proof.
  intros Hst Hins. rewrite serve_step. cbn [fst snd].
  destruct (serve_same_histories rest _ table
              (failed_same_histories r0.1 table r0.2 Hst) Hins) as (H1 & H2).
  by rewrite H1.
Qed.
End Sequences.

(** ** The annotations of a reply *)

Section Annotations.
Context (ext : externals).

Lemma annotate_text r ml rr :
  annotate ext (VStr r) ml rr
  = Value (VStr (r +:+ manual_section ext ml +:+ regulation_section ext rr)).
Proof.
  unfold annotate, manual_section, regulation_section.
  unfold mbind, outcome_mbind, outcome_bind.
  destruct (truthy ml), (truthy rr); cbn [iadd];
    by rewrite ?str_app_nil_r, ?str_app_assoc.
Qed.

(** X15. The reply of the fallback branch and the reply built from a row
    are annotated by the same rule, although the handler writes it out
    twice.  A fallback reply whose response is text is that text followed
    by the manual and the regulation annotation, each only when its value
    is truthy; the reply built from a row is the stripped description and
    the recommended steps, annotated in exactly that way. *)
Theorem annotations_agree (r : string) (row_dict : row) (ml rr : value) :
  annotate ext (VStr r) ml rr
  = Value (VStr (r +:+ manual_section ext ml +:+ regulation_section ext rr))
  /\ format_row ext row_dict ml rr
     = (solutions ← normalize_solutions ext (dict_get row_dict "solutions" VNone);
        description ← strip_value (dict_get row_dict "description" (VStr ""));
        annotate ext (VStr (description +:+ steps_section ext solutions)) ml rr).
Proof.
  split; [apply annotate_text|].
  unfold format_row. unfold mbind at 1 2 3 4, outcome_mbind, outcome_bind.
  destruct (normalize_solutions ext _) as [solutions|e]; [|done].
  destruct (strip_value _) as [description|e]; [|done].
  rewrite annotate_text. unfold steps_section, manual_section, regulation_section.
  destruct solutions as [|s solutions], (truthy ml), (truthy rr);
    rewrite ?str_app_nil_l, ?str_app_nil_r, ?str_app_assoc; reflexivity.
Qed.

End Annotations.

(** ** Actions the handler does not know *)

Section Unknown.
Context (ext : externals).

(** X17. An answer whose [action] is missing, not text, or none of
    [query], [fallback_reasoning] and [ask] is still answered with status
    200: the reply is the answer's response when that is truthy and the
    request to clarify when it is not, so it is never empty; [sql_query] is
    reported as ["N/A"], no query is run, and the exchange is stored. *)
Theorem unknown_action_is_answered table data sid q t j :
  present (sessionId data) = Some sid -> present (question data) = Some q ->
  (forall op, session_fault ext op = None) ->
  invoke_chain ext q (history_of table sid ++ [user_turn q]) = Value t ->
  json_loads ext (strip_fences t) = Some (VDict j) ->
  text_or_falsy (dict_get j "sql_query" VNone) = true ->
  eq_text (dict_get j "action" VNone) "query" = false ->
  eq_text (dict_get j "action" VNone) "fallback_reasoning" = false ->
  eq_text (dict_get j "action" VNone) "ask" = false ->
  let s := text_to_sql ext table data in
  let final := py_or (dict_get j "response" VNone) (VStr clarify_message) in
  status (answer s) = 200%Z
  /\ dict_get (body (answer s)) "response" VNone = final
  /\ truthy final = true
  /\ dict_get (body (answer s)) "sql_query" VNone = VStr "N/A"
  /\ dict_get (body (answer s)) "action" VNone = dict_get j "action" VNone
  /\ queries_run (statements s) = []
  /\ history_of (stored s) sid
     = history_of table sid ++ [user_turn q; assistant_turn final].
Proof.
  intros Hsid Hq Hok Ht Hj Hsql Ha1 Ha2 Ha3 s final. subst s final.
  rewrite (text_to_sql_answered ext table data sid q t) by done.
  rewrite (parse_decision_loaded ext _ _ Hj), (read_decision_text j Hsql).
  cbv zeta. unfold acted, queries_of, execute_action.
  cbn [action sql_query response_text]. rewrite Ha1, Ha2, Ha3, Hok.
  cbn [andb map app fst answer stored statements jsonify status body ok_body
         action mret tx_ret].
  rewrite app_nil_r, queries_run_app, queries_run_opening, history_of_insert,
    String.eqb_refl, <- (assoc_L (++)).
  repeat split. unfold py_or. by destruct (truthy (dict_get j "response" VNone)) eqn:E.
Qed.
End Unknown.

(** ** Answers with one fence, and answers with none *)

Section HalfFenced.
Import Text.

Lemma padded_object_plain_end w body :
  endswith (w +:+ json_object_text body) "```" = false.
Proof.
  destruct (endswith _ _) eqn:E; [|done].
  apply (endswith_last _ _ "`"%char) in E; [|done].
  unfold json_object_text in E.
  replace (w +:+ "{" +:+ body +:+ "}") with ((w +:+ "{" +:+ body) +:+ "}") in E
    by (by rewrite !str_app_assoc).
  by rewrite last_char_app in E.
Qed.

Lemma opened_plain (fence w body : string) c :
  plain c = true ->
  plain_ends (String c fence +:+ w +:+ json_object_text body).
Proof.
  intros Hc. split; [by eexists _, _|].
  exists (String c fence +:+ w +:+ "{" +:+ body), "}"%char. split; [|done].
  unfold json_object_text. by rewrite !str_app_assoc.
Qed.

Lemma strip_padded_object w body :
  all_space w = true -> strip (w +:+ json_object_text body) = json_object_text body.
Proof.
  intros Hw. rewrite <- (str_app_nil_r (json_object_text body)) at 1.
  apply (strip_plain w _ ""); [done|done|apply object_plain].
Qed.

Lemma strip_fences_opened_tagged body w1 w2 w3 :
  all_space w1 = true -> all_space w2 = true -> all_space w3 = true ->
  strip_fences (w1 +:+ "```json" +:+ w2 +:+ json_object_text body +:+ w3)
  = json_object_text body.
Proof.
  intros H1 H2 H3. set (x := json_object_text body).
  etransitivity; [|exact (strip_padded_object w2 body H2)]. fold x.
  apply (strip_fences_via _ ("```json" +:+ w2 +:+ x) (w2 +:+ x) (w2 +:+ x)).
  - replace (w1 +:+ "```json" +:+ w2 +:+ x +:+ w3)
      with (w1 +:+ ("```json" +:+ w2 +:+ x) +:+ w3) by (by rewrite !str_app_assoc).
    apply strip_plain; [done|done|]. by apply (opened_plain "``json" w2 body "`").
  - by rewrite (startswith_app "```json"), (slice_from_app "```json").
  - unfold x. rewrite <- (str_app_nil_r (json_object_text body)).
    by rewrite padded_no_fence.
  - unfold x. by rewrite padded_object_plain_end.
Qed.

Lemma strip_fences_opened_bare body w1 w2 w3 :
  all_space w1 = true -> all_space w2 = true -> all_space w3 = true ->
  strip_fences (w1 +:+ "```" +:+ w2 +:+ json_object_text body +:+ w3)
  = json_object_text body.
Proof.
  intros H1 H2 H3. set (x := json_object_text body).
  etransitivity; [|exact (strip_padded_object w2 body H2)]. fold x.
  apply (strip_fences_via _ ("```" +:+ w2 +:+ x) ("```" +:+ w2 +:+ x) (w2 +:+ x)).
  - replace (w1 +:+ "```" +:+ w2 +:+ x +:+ w3)
      with (w1 +:+ ("```" +:+ w2 +:+ x) +:+ w3) by (by rewrite !str_app_assoc).
    apply strip_plain; [done|done|]. by apply (opened_plain "``" w2 body "`").
  - unfold x. rewrite <- (str_app_nil_r (json_object_text body)).
    by rewrite padded_no_tag.
  - by rewrite (startswith_app "```"), (slice_from_app "```").
  - unfold x. by rewrite padded_object_plain_end.
Qed.

Lemma strip_fences_closed_only body w1 w2 w3 :
  all_space w1 = true -> all_space w2 = true -> all_space w3 = true ->
  strip_fences (w1 +:+ json_object_text body +:+ w2 +:+ "```" +:+ w3)
  = json_object_text body.
Proof.
  intros H1 H2 H3. set (x := json_object_text body).
  assert (Hx : strip (x +:+ w2) = x).
  { apply (strip_plain "" x w2); [done|done|apply object_plain]. }
  etransitivity; [|exact Hx].
  apply (strip_fences_via _ (x +:+ w2 +:+ "```") (x +:+ w2 +:+ "```")
           (x +:+ w2 +:+ "```")).
  - replace (w1 +:+ x +:+ w2 +:+ "```" +:+ w3)
      with (w1 +:+ (x +:+ w2 +:+ "```") +:+ w3) by (by rewrite !str_app_assoc).
    apply strip_plain; [done|done|]. split; [by eexists _, _|].
    exists (x +:+ w2 +:+ "``"), "`"%char. split; [|done]. by rewrite !str_app_assoc.
  - done.
  - done.
  - replace (x +:+ w2 +:+ "```") with ((x +:+ w2) +:+ "```") by (by rewrite !str_app_assoc).
    by rewrite endswith_app, (slice_to_last_app _ "```").
Qed.

(** X18. One fence is enough.  The text of a JSON object that is preceded
    by an opening fence ([json]-tagged or plain) but not followed by a
    closing one, or followed by a closing fence but not preceded by an
    opening one, with any white space around, decodes as the bare object
    does: the two fences are removed independently of one another. *)
Theorem one_fence_is_enough (ext : externals) (members : string)
    (a1 a2 a3 b1 b2 b3 c1 c2 c3 : string) :
  forallb all_space [a1; a2; a3; b1; b2; b3; c1; c2; c3] = true ->
  let text := json_object_text members in
  let decoded :=
    match json_loads ext text with
    | Some llm_json => Some (read_decision llm_json)
    | None =>
        match json_raises ext text with
        | None => None
        | Some e => Some (Raised e)
        end
    end in
  parse_decision ext (a1 +:+ "```json" +:+ a2 +:+ text +:+ a3) = decoded
  /\ parse_decision ext (b1 +:+ "```" +:+ b2 +:+ text +:+ b3) = decoded
  /\ parse_decision ext (c1 +:+ text +:+ c2 +:+ "```" +:+ c3) = decoded.
Proof.
  intros H text decoded. simpl in H.
  repeat match type of H with _ && _ = true => apply andb_true_iff in H as [? H] end.
  unfold parse_decision, decoded, text.
  rewrite strip_fences_opened_tagged, strip_fences_opened_bare,
    strip_fences_closed_only by done.
  done.
Qed.

Lemma startswith_has_char s x p :
  startswith s (String x p) = true -> has_char s x = true.
Proof.
  destruct s as [|c s]; [done|]. simpl.
  intros [->%Ascii.eqb_eq _]%andb_true_iff. by rewrite Ascii.eqb_refl.
Qed.

Lemma last_char_has_char s x : last_char s = Some x -> has_char s x = true.
Proof.
  induction s as [|c s IH]; [done|]. simpl.
  destruct s as [|d s].
  - intros [= ->]. by rewrite Ascii.eqb_refl.
  - intros H. rewrite (IH H). apply orb_true_r.
Qed.

(** X19. Fence removal touches only answers that hold a backtick: of an
    answer without one, exactly the surrounding white space is removed
    (all of it, ASCII or not, and nothing else), so an unfenced answer
    reaches [json.loads] as it is. *)
Theorem unfenced_answer_is_only_stripped (s : string) :
  has_char s "`" = false ->
  strip_fences s = strip s /\ trimmed s (strip_fences s).
Proof.
  intros Hs.
  enough (H : strip_fences s = strip s) by (rewrite H; split; [done|apply strip_trimmed]).
  assert (Hx : has_char (strip s) "`" = false)
    by (by apply has_char_rstrip, has_char_lstrip).
  etransitivity; [|exact (strip_idem s)].
  apply (strip_fences_via _ (strip s) (strip s) (strip s)); [done| | | ].
  - destruct (startswith (strip s) "```json") eqn:E; [|done].
    apply startswith_has_char in E. congruence.
  - destruct (startswith (strip s) "```") eqn:E; [|done].
    apply startswith_has_char in E. congruence.
  - destruct (endswith (strip s) "```") eqn:E; [|done].
    apply (endswith_last _ _ "`"%char) in E; [|done].
    apply last_char_has_char in E. congruence.
Qed.
End HalfFenced.

(** ** Which queries the alias fix changes *)

Section Unchanged.
Import Text.

Lemma scan_grows old new :
  old <> "" -> String.length old <= String.length new ->
  forall n s, String.length s <= n ->
  String.length s <= String.length (scan old new s).
Proof.
  intros Hold Hlen. induction n as [|n IH]; intros [|c s] Hs; try (simpl; lia).
  { simpl in Hs. lia. }
  destruct (startswith (String c s) old) eqn:Hm.
  - rewrite scan_match by done. rewrite str_app_length.
    pose proof (f_equal String.length (startswith_split _ _ Hm)) as Hsplit.
    rewrite str_app_length in Hsplit.
    assert (String.length (slice_from (String.length old) (String c s)) <= n).
    { destruct old; [done|]. simpl in *. lia. }
    specialize (IH _ H). lia.
  - rewrite scan_copy by done. simpl in *. specialize (IH s). lia.
Qed.

Lemma scan_grows_strictly old new :
  old <> "" -> String.length old < String.length new ->
  forall n s, String.length s <= n -> contains s old = true ->
  String.length s < String.length (scan old new s).
Proof.
  intros Hold Hlen. induction n as [|n IH]; intros [|c s] Hs Hc.
  - by destruct old.
  - simpl in Hs. lia.
  - by destruct old.
  - destruct (startswith (String c s) old) eqn:Hm.
    + rewrite scan_match by done. rewrite str_app_length.
      pose proof (f_equal String.length (startswith_split _ _ Hm)) as Hsplit.
      rewrite str_app_length in Hsplit.
      pose proof (scan_grows old new Hold ltac:(lia) _
                    (slice_from (String.length old) (String c s)) (le_n _)).
      lia.
    + rewrite scan_copy by done. rewrite contains_cons, Hm in Hc. simpl in *.
      specialize (IH s ltac:(lia) Hc). lia.
Qed.

(** X20. The alias fix changes a query exactly when one of its three
    patterns occurs in it: a query that contains none of [" bf.model "],
    [" bf.model,"] and [".model ="] is sent as the model wrote it, and every
    other query is sent changed. *)
Theorem rewrite_aliases_changes_only_aliases (q : string) :
  rewrite_aliases q = q
  <-> contains q " bf.model " = false
      /\ contains q " bf.model," = false
      /\ contains q ".model =" = false.
Proof.
  unfold rewrite_aliases. split.
  - change (replace (replace (replace q " bf.model " " bf.model_name ")
                       " bf.model," " bf.model_name,") ".model =" ".model_name =")
      with (scan ".model =" ".model_name ="
              (scan " bf.model," " bf.model_name,"
                 (scan " bf.model " " bf.model_name " q))).
    set (q1 := scan " bf.model " " bf.model_name " q).
    set (q2 := scan " bf.model," " bf.model_name," q1).
    intros Heq. apply (f_equal String.length) in Heq.
    pose proof (scan_grows " bf.model " " bf.model_name " ltac:(done)
                  ltac:(simpl; lia) _ q (le_n _)) as G1.
    pose proof (scan_grows " bf.model," " bf.model_name," ltac:(done)
                  ltac:(simpl; lia) _ q1 (le_n _)) as G2.
    pose proof (scan_grows ".model =" ".model_name =" ltac:(done)
                  ltac:(simpl; lia) _ q2 (le_n _)) as G3.
    fold q1 in G1. fold q2 in G2.
    assert (H1 : contains q " bf.model " = false).
    { destruct (contains q " bf.model ") eqn:E; [|done].
      pose proof (scan_grows_strictly " bf.model " " bf.model_name " ltac:(done)
                    ltac:(simpl; lia) _ q (le_n _) E) as S1.
      fold q1 in S1. lia. }
    assert (Hq1 : q1 = q) by (by apply (replace_absent " bf.model " " bf.model_name ")).
    assert (H2 : contains q1 " bf.model," = false).
    { destruct (contains q1 " bf.model,") eqn:E; [|done].
      pose proof (scan_grows_strictly " bf.model," " bf.model_name," ltac:(done)
                    ltac:(simpl; lia) _ q1 (le_n _) E) as S2.
      fold q2 in S2. lia. }
    assert (Hq2 : q2 = q1) by (by apply (replace_absent " bf.model," " bf.model_name,")).
    assert (H3 : contains q2 ".model =" = false).
    { destruct (contains q2 ".model =") eqn:E; [|done].
      pose proof (scan_grows_strictly ".model =" ".model_name =" ltac:(done)
                    ltac:(simpl; lia) _ q2 (le_n _) E) as S3.
      lia. }
    rewrite Hq2 in H3. rewrite Hq1 in H2, H3. done.
  - intros (H1 & H2 & H3).
    by rewrite (replace_absent _ _ q H1), (replace_absent _ _ q H2),
      (replace_absent _ _ q H3).
Qed.
End Unchanged.

(** ** Rows the reply cannot be built from *)

Section Rows.
Context (ext : externals).

(** X21. The default of [description] covers a missing column, not a NULL
    one.  When the first row of the result has a [description] that is not
    text, [.strip()] raises: the request ends with status 500 and the
    message of the [AttributeError], the query was the last statement sent,
    and the transaction is rolled back. *)
Theorem description_must_be_text table data sid q t j q0 row_dict more solutions :
  present (sessionId data) = Some sid -> present (question data) = Some q ->
  session_fault ext OpSelect = None -> session_fault ext OpInsert = None ->
  invoke_chain ext q (history_of table sid ++ [user_turn q]) = Value t ->
  json_loads ext (strip_fences t) = Some (VDict j) ->
  dict_get j "action" VNone = VStr "query" ->
  dict_get j "sql_query" VNone = VStr q0 -> q0 <> "" ->
  fetchall ext (rewrite_aliases q0) = Value (row_dict :: more) ->
  normalize_solutions ext (dict_get row_dict "solutions" VNone) = Value solutions ->
  is_text (dict_get row_dict "description" (VStr "")) = false ->
  let s := text_to_sql ext table data in
  answer s
  = jsonify [("error",
              VStr ("'" +:+ type_name (dict_get row_dict "description" (VStr ""))
                    +:+ "' object has no attribute 'strip'"))] 500
  /\ In "description" (map fst row_dict)
  /\ stored s = table
  /\ statements s = opening table sid ++ [RunQuery (rewrite_aliases q0)].
Proof.
  intros Hsid Hq Hsel Hins Ht Hj Hact Hsql Hne Hrows Hsol Hdesc s. subst s.
  rewrite (text_to_sql_answered ext table data sid q t) by done.
  rewrite (parse_decision_loaded ext _ _ Hj).
  rewrite read_decision_text by (by rewrite Hsql).
  rewrite Hsql, Hact. cbv zeta.
  assert (Htr : truthy (VStr (rewrite_aliases q0)) = true)
    by by apply truthy_text, rewrite_aliases_nonempty.
  assert (Hcol : In "description" (map fst row_dict)).
  { clear -Hdesc. induction row_dict as [|[k v] r IH]; [done|]. simpl in *.
    destruct (String.eqb_spec k "description") as [->|_]; [by left|right; auto]. }
  unfold acted, queries_of, execute_action, execute_query.
  cbn [action sql_query manual_link regulation_ref eq_text String.eqb Ascii.eqb
         Bool.eqb andb].
  rewrite Htr. tx_unfold. cbv beta iota. rewrite Hrows.
  unfold mret, tx_ret. cbv beta iota.
  unfold format_row. unfold mbind, outcome_mbind, outcome_bind. rewrite Hsol.
  unfold strip_value.
  destruct (dict_get row_dict "description" (VStr "")); done.
Qed.
End Rows.

(** ** The field the handler reads and never uses *)

Section ContextUpdate.
Context (ext : externals).

Lemma read_decision_with_context c v :
  match read_decision v, read_decision (with_context c v) with
  | Value d, Value d' =>
      d' = Decision (action d) (response_text d) c (sql_query d) (manual_link d)
             (regulation_ref d)
  | Raised e, Raised e' => e = e'
  | _, _ => False
  end.
Proof.
  destruct v as [| | | | | |j]; try done.
  unfold with_context, read_decision. cbn [dict_get String.eqb Ascii.eqb Bool.eqb].
  destruct (truthy (dict_get j "sql_query" VNone)); [|done].
  by destruct (fix_sql_query _).
Qed.

Lemma acted_with_loads loads a r c c' s m g :
  acted (with_loads ext loads) (Decision a r c' s m g)
  = acted ext (Decision a r c s m g).
Proof. reflexivity. Qed.

(** X22. [context_update] is read from the answer and then never used:
    whatever value the model puts there, and whether it is there at all,
    the reply, the statements sent and the stored sessions are the same. *)
Theorem context_update_is_ignored (c : value) table data :
  text_to_sql (with_loads ext (fun s => with_context c <$> json_loads ext s))
    table data
  = text_to_sql ext table data.
Proof.
  rewrite !text_to_sql_stages.
  destruct (present (sessionId data)) as [sid|]; [|done].
  destruct (present (question data)) as [q|]; [|done].
  rewrite !in_transaction_stages. cbv zeta.
  cbn [session_fault invoke_chain with_loads].
  destruct (session_fault ext OpSelect); [done|].
  destruct (match table !! sid with Some _ => None | None => _ end); [done|].
  destruct (invoke_chain ext q _) as [t|e]; [|done].
  unfold parse_decision. cbv zeta. cbn [json_loads json_raises with_loads].
  destruct (json_loads ext (strip_fences t)) as [v|];
    [|by destruct (json_raises ext (strip_fences t))].
  cbn [fmap option_fmap option_map].
  pose proof (read_decision_with_context c v) as Hv.
  destruct (read_decision v) as [[a r c0 s m g]|e],
    (read_decision (with_context c v)) as [d'|e']; try done; [|by subst].
  subst d'. cbn [action response_text sql_query manual_link regulation_ref].
  rewrite (acted_with_loads _ a r c0 c s m g).
  unfold queries_of, ok_body.
  cbn [action response_text sql_query manual_link regulation_ref].
  destruct (acted ext _) as [[final sq]|?|?]; try done.
Qed.
End ContextUpdate.

(** ** The theorems of the whole request on recorded answers *)

Section MoreExamples.
Import Demo.

(** X2 on a question of session [s1] while session [s2] has a history. *)
Lemma other_sessions_untouched_witness :
  let s := text_to_sql ext Trouble.busy_table (ask "s1" "What should I check first?") in
  stored s !! "s2" = Trouble.busy_table !! "s2"
  /\ history_of (stored s) "s2" = history_of Trouble.busy_table "s2"
  /\ Forall (fun st => session_of st <> Some "s2") (statements s).
Proof.
  apply (other_sessions_untouched ext Trouble.busy_table
           (ask "s1" "What should I check first?") "s2").
  intros H. vm_compute in H. discriminate H.
Defined.

(** X3 on a question of session [s1], with and without the row of [s2]. *)
Lemma request_reads_its_session_only_witness :
  let s1 := text_to_sql ext ∅ (ask "s1" "Ideal Logic shows F1") in
  let s2 := text_to_sql ext Trouble.busy_table (ask "s1" "Ideal Logic shows F1") in
  answer s1 = answer s2
  /\ statements s1 = statements s2
  /\ forall sid, present (sessionId (ask "s1" "Ideal Logic shows F1")) = Some sid ->
       stored s1 !! sid = stored s2 !! sid.
Proof.
  apply (request_reads_its_session_only ext ∅ Trouble.busy_table
           (ask "s1" "Ideal Logic shows F1")).
  intros sid H. vm_compute in H. injection H as <-. vm_compute. reflexivity.
Defined.

(** X12 on a question of session [s1] and an answer of session [s2] that is
    no object. *)
Lemma requests_of_two_sessions_commute_witness :
  (serve ∅ [(ext, ask "s1" "What should I check first?");
            (Trouble.ext, ask "s2" "Give me a list")]).1
  = (serve ∅ [(Trouble.ext, ask "s2" "Give me a list");
              (ext, ask "s1" "What should I check first?")]).1
  /\ (serve ∅ [(ext, ask "s1" "What should I check first?");
               (Trouble.ext, ask "s2" "Give me a list")]).2
     = reverse (serve ∅ [(Trouble.ext, ask "s2" "Give me a list");
                         (ext, ask "s1" "What should I check first?")]).2.
Proof.
  apply (requests_of_two_sessions_commute
           (ext, ask "s1" "What should I check first?")
           (Trouble.ext, ask "s2" "Give me a list") ∅).
  intros H. vm_compute in H. discriminate H.
Defined.

(** X4 on session [s1], unknown in one table and stored with a NULL history
    in the other. *)
Lemma reply_goes_by_the_history_witness :
  let s1 := text_to_sql ext ∅ (ask "s1" "What should I check first?") in
  let s2 := text_to_sql ext Trouble.null_table (ask "s1" "What should I check first?") in
  answer s1 = answer s2
  /\ queries_run (statements s1) = queries_run (statements s2)
  /\ history_of (stored s1) "s1" = history_of (stored s2) "s1".
Proof.
  apply (reply_goes_by_the_history ext ∅ Trouble.null_table
           (ask "s1" "What should I check first?") "s1"); vm_compute; reflexivity.
Defined.

(** X8 on the answer [[1, 2]]. *)
Lemma answer_must_be_an_object_witness :
  let s := text_to_sql Trouble.ext ∅ (ask "s1" "Give me a list") in
  answer s = jsonify [("error", VStr "'list' object has no attribute 'get'")] 500
  /\ stored s = ∅
  /\ statements s = opening ∅ "s1".
Proof.
  exact (answer_must_be_an_object Trouble.ext ∅ (ask "s1" "Give me a list")
           "s1" "Give me a list" "[1, 2]" (VList [VInt 1; VInt 2])
           eq_refl eq_refl eq_refl eq_refl eq_refl eq_refl eq_refl).
Defined.

(** X10 on a query of a table the store does not have. *)
Lemma failed_query_undoes_the_request_witness :
  let s := text_to_sql Trouble.ext ∅ (ask "s1" "Which parts are there?") in
  answer s = jsonify [("error", VStr "relation or column does not exist")] 500
  /\ stored s = ∅
  /\ statements s
     = opening ∅ "s1" ++ [RunQuery (rewrite_aliases "SELECT name FROM boiler_parts")].
Proof.
  apply (failed_query_undoes_the_request Trouble.ext ∅
           (ask "s1" "Which parts are there?") "s1" "Which parts are there?"
           (object_text Trouble.parts_members)
           [("action", VStr "query"); ("sql_query", VStr "SELECT name FROM boiler_parts")]
           "SELECT name FROM boiler_parts"
           (ServiceError "relation or column does not exist"));
    first [reflexivity | discriminate].
Defined.

(** X14 on an answer that cannot be decoded, followed by a question of the
    same session. *)
Lemma failed_request_is_forgotten_witness :
  (serve ∅ [(ext, ask "s1" "Say anything");
            (ext, ask "s1" "What should I check first?")]).2
  = ((ext, ask "s1" "Say anything").2,
     answer (text_to_sql ext ∅ (ask "s1" "Say anything")))
    :: (serve ∅ [(ext, ask "s1" "What should I check first?")]).2
  /\ same_histories
       (serve ∅ [(ext, ask "s1" "Say anything");
                 (ext, ask "s1" "What should I check first?")]).1
       (serve ∅ [(ext, ask "s1" "What should I check first?")]).1.
Proof.
  apply (failed_request_is_forgotten (ext, ask "s1" "Say anything")
           [(ext, ask "s1" "What should I check first?")] ∅).
  - intros H. vm_compute in H. discriminate H.
  - repeat constructor.
Defined.

(** X17 on the answer [{"action": "escalate"}]. *)
Lemma unknown_action_is_answered_witness :
  let s := text_to_sql Trouble.ext ∅ (ask "s1" "Call someone") in
  let final := py_or VNone (VStr clarify_message) in
  status (answer s) = 200%Z
  /\ dict_get (body (answer s)) "response" VNone = final
  /\ truthy final = true
  /\ dict_get (body (answer s)) "sql_query" VNone = VStr "N/A"
  /\ dict_get (body (answer s)) "action" VNone = VStr "escalate"
  /\ queries_run (statements s) = []
  /\ history_of (stored s) "s1"
     = history_of ∅ "s1" ++ [user_turn "Call someone"; assistant_turn final].
Proof.
  apply (unknown_action_is_answered Trouble.ext ∅ (ask "s1" "Call someone")
           "s1" "Call someone" (object_text Trouble.escalate_members)
           [("action", VStr "escalate")]); reflexivity.
Defined.

(** X18 on the "ask" answer with one fence only. *)
Lemma one_fence_is_enough_witness :
  let text := object_text ask_members in
  let decoded :=
    Some (Value (Decision (VStr "ask") (VStr "What type of heating system?")
                   (VDict []) VNone (VStr "") (VStr ""))) in
  parse_decision ext ("" +:+ "```json" +:+ LF +:+ text +:+ "") = decoded
  /\ parse_decision ext (" " +:+ "```" +:+ " " +:+ text +:+ LF) = decoded
  /\ parse_decision ext ("" +:+ text +:+ LF +:+ "```" +:+ LF) = decoded.
Proof.
  exact (one_fence_is_enough ext (Text.join ", " (map member ask_members))
           "" LF "" " " " " LF "" LF LF eq_refl).
Defined.

(** X19 on the "ask" answer between a no-break space and a line feed. *)
Lemma unfenced_answer_is_only_stripped_witness :
  (strip_fences (NBSP +:+ object_text ask_members +:+ LF)
   = Text.strip (NBSP +:+ object_text ask_members +:+ LF)
   /\ trimmed (NBSP +:+ object_text ask_members +:+ LF)
        (strip_fences (NBSP +:+ object_text ask_members +:+ LF)))
  /\ strip_fences (NBSP +:+ object_text ask_members +:+ LF)
     = object_text ask_members.
Proof.
  split; [|reflexivity].
  exact (unfenced_answer_is_only_stripped (NBSP +:+ object_text ask_members +:+ LF)
           eq_refl).
Defined.

(** X9 on the answer [{"action": "query", "sql_query": 7}]. *)
Lemma query_must_be_text_witness :
  let s := text_to_sql Trouble.ext ∅ (ask "s1" "Count them") in
  answer s = jsonify [("error", VStr "'int' object has no attribute 'replace'")] 500
  /\ stored s = ∅
  /\ statements s = opening ∅ "s1".
Proof.
  exact (query_must_be_text Trouble.ext ∅ (ask "s1" "Count them")
           "s1" "Count them" Trouble.numbered_query_text
           [("action", VStr "query"); ("sql_query", VInt 7)]
           eq_refl eq_refl eq_refl eq_refl eq_refl eq_refl eq_refl).
Defined.

(** X21 on a row whose description is NULL. *)
Lemma description_must_be_text_witness :
  let s := text_to_sql Trouble.ext ∅ (ask "s1" "Ideal Logic shows L2") in
  answer s = jsonify [("error", VStr "'NoneType' object has no attribute 'strip'")] 500
  /\ In "description" (map fst Trouble.undescribed_row)
  /\ stored s = ∅
  /\ statements s
     = opening ∅ "s1"
       ++ [RunQuery (rewrite_aliases "SELECT bf.description FROM boiler_fault_codes bf WHERE bf.fault_code = 'L2'")].
Proof.
  apply (description_must_be_text Trouble.ext ∅ (ask "s1" "Ideal Logic shows L2")
           "s1" "Ideal Logic shows L2" (object_text Trouble.undescribed_members)
           (map (fun kv => (kv.1, VStr kv.2)) Trouble.undescribed_members)
           "SELECT bf.description FROM boiler_fault_codes bf WHERE bf.fault_code = 'L2'"
           Trouble.undescribed_row [] [VStr "Reset the boiler"]);
    first [reflexivity | discriminate].
Defined.
End MoreExamples.
